(** * TypingGame: the two-phase typing-assessment session controller

    A shallow embedding of [src/frontend/src/components/TypingGame.tsx].

    The React component keeps its session in [useState] cells, in three
    [sessionStorage] keys and in the closures of its handlers.  The
    embedding keeps the same pieces apart:

    - [State] has one field per [useState] cell;
    - [World] adds the [sessionStorage] map, the log of requests sent to
      the server, the pending timers and suspended handlers, and the
      route the component navigated to;
    - a handler is a function on [World]; what it reads from its closure
      (the render it was created in) is an explicit [State] argument
      where that render can be stale, and what the server answers is an
      explicit argument as well.

    Conventions of the embedding:
    - JavaScript strings are [string]s of 8-bit characters; [toLowerCase]
      and [trim] are the ASCII restrictions of the JavaScript functions;
    - counters and lengths are [nat], clock readings ([Date.now()]) are [Z];
    - the [accuracy] cell holds a JavaScript number; it is modelled by an
      exact rational ([Q]), compared with [==];
    - [JSON.stringify] followed by [JSON.parse] is the identity on the
      values the component stores. *)

From Stdlib Require Import Ascii String ZArith QArith Qminmax Qround Lia Lqa.
From stdpp Require Import base option list strings gmap.

#[local] Open Scope string_scope.
#[local] Open Scope list_scope.
#[local] Open Scope nat_scope.

(** ** Constants (lines 5-8) *)

Definition TOTAL_WORDS : nat := 5.
Definition WORD_DISPLAY_DELAY : Z := 1000.
Definition FEEDBACK_DELAY : Z := 1500.
Definition AI_THINKING_DELAY : Z := 2000.

(** ** Strings *)

Module JsString.

(** [c.toLowerCase()] on one character: 'A'..'Z' move to 'a'..'z'. *)
Definition charToLowerCase (c : ascii) : ascii :=
  let n := nat_of_ascii c in
  if (65 <=? n) && (n <=? 90) then ascii_of_nat (n + 32) else c.

Fixpoint toLowerCase (s : string) : string :=
  match s with
  | EmptyString => EmptyString
  | String c r => String (charToLowerCase c) (toLowerCase r)
  end.

(** White space as [trim] sees it: tab, line feed, vertical tab, form
    feed, carriage return and space. *)
Definition isWhiteSpace (c : ascii) : bool :=
  let n := nat_of_ascii c in
  ((9 <=? n) && (n <=? 13)) || (n =? 32).

Fixpoint trimStart (s : string) : string :=
  match s with
  | EmptyString => EmptyString
  | String c r => if isWhiteSpace c then trimStart r else s
  end.

Fixpoint trimEnd (s : string) : string :=
  match s with
  | EmptyString => EmptyString
  | String c r =>
      match trimEnd r with
      | EmptyString => if isWhiteSpace c then EmptyString else String c EmptyString
      | r' => String c r'
      end
  end.

Definition trim (s : string) : string := trimEnd (trimStart s).

(** [s[i]]: [None] stands for [undefined]. *)
Definition charAt (s : string) (i : nat) : option ascii := String.get i s.

(** [!s] for a string: only the empty string is falsy. *)
Definition falsy (s : string) : bool := bool_decide (s = "").

End JsString.

Import JsString.

(** ** Scoring (handleSubmit, lines 173-188) *)

(** [userWord = input.trim().toLowerCase()] *)
Definition userWordOf (input : string) : string := toLowerCase (trim input).

(** [targetWord = currentWord.toLowerCase()]: the target is not trimmed. *)
Definition targetWordOf (currentWord : string) : string := toLowerCase currentWord.

(** [userWord[i] !== targetWord[i]] *)
Definition charDiffers (userWord targetWord : string) (i : nat) : bool :=
  bool_decide (charAt userWord i ≠ charAt targetWord i).

(** The [for] loop of lines 178-183: [i] is the loop variable, [steps]
    the number of iterations left, [wordMistakes] the counter. *)
Fixpoint mistakesLoop (userWord targetWord : string) (i steps wordMistakes : nat) : nat :=
  match steps with
  | O => wordMistakes
  | S steps' =>
      mistakesLoop userWord targetWord (S i) steps'
        (if charDiffers userWord targetWord i then S wordMistakes else wordMistakes)
  end.

Definition countMistakes (userWord targetWord : string) : nat :=
  mistakesLoop userWord targetWord 0
    (Nat.max (String.length userWord) (String.length targetWord)) 0.

(** The positions the specification counts: the indices below the longer
    length at which the two strings differ, a missing character being
    different from every character. *)
Definition mismatchPositions (a b : string) : list nat :=
  filter (λ i, charAt a i ≠ charAt b i)
         (seq 0 (Nat.max (String.length a) (String.length b))).

(** Hamming distance of two strings, position by position; characters
    left over on either side count one each. *)
Fixpoint hamming (a b : string) : nat :=
  match a, b with
  | EmptyString, _ => String.length b
  | _, EmptyString => String.length a
  | String x a', String y b' => (if bool_decide (x = y) then 0 else 1) + hamming a' b'
  end.

(** Hamming distance that ignores letter case. *)
Definition hammingIgnoringCase (a b : string) : nat :=
  hamming (toLowerCase a) (toLowerCase b).

(** [Math.max(0, Math.min(100, (1 - wordMistakes / targetWord.length) * 100))] *)
Definition newAccuracyOf (wordMistakes targetLength : nat) : Q :=
  Qmax 0 (Qmin 100
    ((1 - inject_Z (Z.of_nat wordMistakes) / inject_Z (Z.of_nat targetLength)) * 100))%Q.

(** [prev => (prev + newAccuracy) / 2] *)
Definition rollingAverage (newAccuracy prev : Q) : Q := ((prev + newAccuracy) / 2)%Q.

(** ** Data model *)

Inductive Phase := initial | analyzing | targeted.

Inductive Difficulty := easy | medium | hard.

#[global] Instance Phase_eq_dec : EqDecision Phase.
Proof. solve_decision. Defined.

#[global] Instance Difficulty_eq_dec : EqDecision Difficulty.
Proof. solve_decision. Defined.

(** The [entry] object of lines 190-196 (the declared interface
    [TypingResult] plus the [mistakes] field the handler adds). *)
Module Entry.
Record t := mk {
  word : string;
  input : string;
  correct : bool;
  timeSpent : Z;
  mistakes : nat
}.
End Entry.

Abbreviation TypingResult := Entry.t.

Record ChildData := mkChildData {
  username : string;
  therapistCode : string;
  sessionId : string
}.

Record Analysis := mkAnalysis {
  problematicLetters : list string;
  confusionPatterns : list (string * string)
}.

(** What [setMessage] is called with.  The texts are kept as
    constructors; the data that goes into a text is kept as arguments. *)
Inductive Tip :=
  | TipMissedLetters
  | TipExtraLetters
  | TipFocusOn (diffPositions : list (nat * option ascii * option ascii)).

Inductive Message :=
  | MsgPerfect (timeSpent : Z) (accuracy : Q)
  | MsgFeedback (currentWord inputWord : string) (comparison : list bool) (tip : Tip)
  | MsgAnalyzing
  | MsgFirstSetCompleted (lettersToFocusOn : list string)
  | MsgCompleting
  | MsgAssessmentComplete (withFinalAnalysis : bool)
  | MsgSaveFailed (text : string)
  | MsgSaveNetworkError.

Record State := mkState {
  currentWord : string;
  input : string;
  results : list TypingResult;
  wordCount : nat;
  loading : bool;
  error : option string;
  difficulty : Difficulty;
  accuracy : Q;
  totalMistakes : nat;
  childData : option ChildData;
  message : option Message;
  isGeneratingWord : bool;
  startTime : option Z;
  phase : Phase;
  analysis : option Analysis;
  savingOnClose : bool
}.

(** The setters of the [useState] cells. *)

Definition setCurrentWord (v : string) (s : State) : State :=
  mkState v (input s) (results s) (wordCount s) (loading s) (error s)
    (difficulty s) (accuracy s) (totalMistakes s) (childData s) (message s)
    (isGeneratingWord s) (startTime s) (phase s) (analysis s)
    (savingOnClose s).

Definition setInput (v : string) (s : State) : State :=
  mkState (currentWord s) v (results s) (wordCount s) (loading s) (error s)
    (difficulty s) (accuracy s) (totalMistakes s) (childData s) (message s)
    (isGeneratingWord s) (startTime s) (phase s) (analysis s)
    (savingOnClose s).

Definition setResults (v : list TypingResult) (s : State) : State :=
  mkState (currentWord s) (input s) v (wordCount s) (loading s) (error s)
    (difficulty s) (accuracy s) (totalMistakes s) (childData s) (message s)
    (isGeneratingWord s) (startTime s) (phase s) (analysis s)
    (savingOnClose s).

Definition setWordCount (v : nat) (s : State) : State :=
  mkState (currentWord s) (input s) (results s) v (loading s) (error s)
    (difficulty s) (accuracy s) (totalMistakes s) (childData s) (message s)
    (isGeneratingWord s) (startTime s) (phase s) (analysis s)
    (savingOnClose s).

Definition setLoading (v : bool) (s : State) : State :=
  mkState (currentWord s) (input s) (results s) (wordCount s) v (error s)
    (difficulty s) (accuracy s) (totalMistakes s) (childData s) (message s)
    (isGeneratingWord s) (startTime s) (phase s) (analysis s)
    (savingOnClose s).

Definition setError (v : option string) (s : State) : State :=
  mkState (currentWord s) (input s) (results s) (wordCount s) (loading s) v
    (difficulty s) (accuracy s) (totalMistakes s) (childData s) (message s)
    (isGeneratingWord s) (startTime s) (phase s) (analysis s)
    (savingOnClose s).

Definition setDifficulty (v : Difficulty) (s : State) : State :=
  mkState (currentWord s) (input s) (results s) (wordCount s) (loading s)
    (error s) v (accuracy s) (totalMistakes s) (childData s) (message s)
    (isGeneratingWord s) (startTime s) (phase s) (analysis s)
    (savingOnClose s).

Definition setAccuracy (v : Q) (s : State) : State :=
  mkState (currentWord s) (input s) (results s) (wordCount s) (loading s)
    (error s) (difficulty s) v (totalMistakes s) (childData s) (message s)
    (isGeneratingWord s) (startTime s) (phase s) (analysis s)
    (savingOnClose s).

Definition setTotalMistakes (v : nat) (s : State) : State :=
  mkState (currentWord s) (input s) (results s) (wordCount s) (loading s)
    (error s) (difficulty s) (accuracy s) v (childData s) (message s)
    (isGeneratingWord s) (startTime s) (phase s) (analysis s)
    (savingOnClose s).

Definition setChildData (v : option ChildData) (s : State) : State :=
  mkState (currentWord s) (input s) (results s) (wordCount s) (loading s)
    (error s) (difficulty s) (accuracy s) (totalMistakes s) v (message s)
    (isGeneratingWord s) (startTime s) (phase s) (analysis s)
    (savingOnClose s).

Definition setMessage (v : option Message) (s : State) : State :=
  mkState (currentWord s) (input s) (results s) (wordCount s) (loading s)
    (error s) (difficulty s) (accuracy s) (totalMistakes s) (childData s) v
    (isGeneratingWord s) (startTime s) (phase s) (analysis s)
    (savingOnClose s).

Definition setIsGeneratingWord (v : bool) (s : State) : State :=
  mkState (currentWord s) (input s) (results s) (wordCount s) (loading s)
    (error s) (difficulty s) (accuracy s) (totalMistakes s) (childData s)
    (message s) v (startTime s) (phase s) (analysis s) (savingOnClose s).

Definition setStartTime (v : option Z) (s : State) : State :=
  mkState (currentWord s) (input s) (results s) (wordCount s) (loading s)
    (error s) (difficulty s) (accuracy s) (totalMistakes s) (childData s)
    (message s) (isGeneratingWord s) v (phase s) (analysis s)
    (savingOnClose s).

Definition setPhase (v : Phase) (s : State) : State :=
  mkState (currentWord s) (input s) (results s) (wordCount s) (loading s)
    (error s) (difficulty s) (accuracy s) (totalMistakes s) (childData s)
    (message s) (isGeneratingWord s) (startTime s) v (analysis s)
    (savingOnClose s).

Definition setAnalysis (v : option Analysis) (s : State) : State :=
  mkState (currentWord s) (input s) (results s) (wordCount s) (loading s)
    (error s) (difficulty s) (accuracy s) (totalMistakes s) (childData s)
    (message s) (isGeneratingWord s) (startTime s) (phase s) v
    (savingOnClose s).

Definition setSavingOnClose (v : bool) (s : State) : State :=
  mkState (currentWord s) (input s) (results s) (wordCount s) (loading s)
    (error s) (difficulty s) (accuracy s) (totalMistakes s) (childData s)
    (message s) (isGeneratingWord s) (startTime s) (phase s) (analysis s) v.

(** The cells as [useState] initialises them (lines 18-37). *)
Definition initialState : State :=
  {| currentWord := ""; input := ""; results := []; wordCount := 0;
     loading := true; error := None; difficulty := easy; accuracy := 100%Q;
     totalMistakes := 0; childData := None; message := None;
     isGeneratingWord := false; startTime := None; phase := initial;
     analysis := None; savingOnClose := false |}.

(** ** The world around the component *)

(** [sessionStorage], restricted to the three families of keys the
    handlers use: [targetedWords_<id>], [targetedWordIndex_<id>] and
    [firstSetResults_<id>].  The three prefixes differ, so each family is
    a map of its own, keyed by the session id.  The index is stored as
    the decimal text of a number and read back with [parseInt]. *)
Record SessionStorage := mkStorage {
  targetedWords : gmap string (list string);
  targetedWordIndex : gmap string nat;
  firstSetResults : gmap string (list TypingResult)
}.

Definition emptyStorage : SessionStorage := mkStorage ∅ ∅ ∅.

(** The bodies of the [fetch] calls. *)
Inductive Request :=
  | GenerateInitialWord (data : ChildData)
  | GenerateNextWord (data : ChildData) (typingHistory : list TypingResult) (phase : Phase)
  | AnalyzeTypingResults (data : ChildData) (results : list TypingResult)
  | GenerateTargetedWords (data : ChildData) (analysis : Analysis)
  | SaveTypingResults (data : ChildData) (results : list TypingResult)
      (analysis : option Analysis) (isComplete : bool)
  | SaveOnClose (data : ChildData) (results : list TypingResult).

(** What the server answers, as far as the handlers look at it. *)
Inductive WordReply :=
  | WordOk (word : string)
  | WordRefused (error : option string)
  | WordThrows (message : string).

Inductive AnalysisReply :=
  | AnalysisThrows
  | AnalysisUnsuccessful
  | AnalysisSuccess (analysis : Analysis).

Inductive TargetedReply :=
  | TargetedThrows
  | TargetedUnsuccessful
  | TargetedSuccess (words : list string).

Inductive SaveReply :=
  | SaveThrows
  | SaveNotOk (error : option string)
  | SaveOk (finalAnalysis : option Analysis).

(** Timers that have not fired and handlers suspended at an [await]. *)
Inductive Pending :=
  | TimerClearMessage
  | TimerGenerateNextWord (closure : State)
  | TimerNavigate (to : string)
  | AwaitAnalysis (data : ChildData) (newResults : list TypingResult)
  | AwaitFinish (data : ChildData) (newResults : list TypingResult) (closure : State)
  | AwaitCloseSave.

Record World := mkWorld {
  state : State;
  sessionStorage : SessionStorage;
  requests : list Request;
  pending : list Pending;
  navigated : option string
}.

Definition onState (f : State → State) (w : World) : World :=
  mkWorld (f (state w)) (sessionStorage w) (requests w) (pending w) (navigated w).

Definition onStorage (f : SessionStorage → SessionStorage) (w : World) : World :=
  mkWorld (state w) (f (sessionStorage w)) (requests w) (pending w) (navigated w).

Definition send (r : Request) (w : World) : World :=
  mkWorld (state w) (sessionStorage w) (requests w ++ [r]) (pending w) (navigated w).

Definition later (p : Pending) (w : World) : World :=
  mkWorld (state w) (sessionStorage w) (requests w) (pending w ++ [p]) (navigated w).

Definition navigate (to : string) (w : World) : World :=
  mkWorld (state w) (sessionStorage w) (requests w) (pending w) (Some to).

Definition setPending (ps : list Pending) (w : World) : World :=
  mkWorld (state w) (sessionStorage w) (requests w) ps (navigated w).

(** [sessionStorage.setItem] and [removeItem] on the three families. *)
Definition setTargetedWords (id : string) (ws : list string) (st : SessionStorage) :=
  mkStorage (<[id := ws]> (targetedWords st)) (targetedWordIndex st) (firstSetResults st).

Definition setTargetedWordIndex (id : string) (i : nat) (st : SessionStorage) :=
  mkStorage (targetedWords st) (<[id := i]> (targetedWordIndex st)) (firstSetResults st).

Definition setFirstSetResults (id : string) (rs : list TypingResult) (st : SessionStorage) :=
  mkStorage (targetedWords st) (targetedWordIndex st) (<[id := rs]> (firstSetResults st)).

Definition removeSessionKeys (id : string) (st : SessionStorage) :=
  mkStorage (delete id (targetedWords st)) (delete id (targetedWordIndex st))
            (delete id (firstSetResults st)).

(** Handlers are written as a chain of effects, first effect first. *)
Notation "w |> f" := (f w) (at level 45, left associativity, only parsing).

(** ** Word generation *)

(** [e || fallback] for a text that may be missing or empty. *)
Definition orElse (e : option string) (fallback : string) : string :=
  match e with
  | Some t => if falsy t then fallback else t
  | None => fallback
  end.

(** The text [setError] receives in the [catch] blocks of the two word
    requests: [err.message || 'Network error'], where a refused request
    throws [new Error(result.error || 'Failed to generate word')]. *)
Definition caughtMessage (reply : WordReply) : string :=
  match reply with
  | WordOk _ => ""
  | WordRefused e => orElse (Some (orElse e "Failed to generate word")) "Network error"
  | WordThrows m => orElse (Some m) "Network error"
  end.

(** generateInitialWord, lines 63-89. *)
Definition generateInitialWord (data : ChildData) (reply : WordReply) (w : World) : World :=
  let w := w |> onState (setLoading true) |> onState (setError None)
             |> send (GenerateInitialWord data) in
  match reply with
  | WordOk word => w |> onState (setCurrentWord word) |> onState (setLoading false)
  | _ => w |> onState (setError (Some (caughtMessage reply))) |> onState (setLoading false)
  end.

(** What the mount effect finds under the [childData] key. *)
Record StoredChild := mkStoredChild {
  storedData : ChildData;
  preferredGame : string
}.

(** The mount effect, lines 39-61.  A missing or unreadable item is [None]. *)
Definition mount (storage : SessionStorage) (stored : option StoredChild)
    (reply : WordReply) : World :=
  let w := mkWorld initialState storage [] [] None in
  match stored with
  | None => w |> navigate "/child-login"
  | Some parsed =>
      let w := w |> onState (setChildData (Some (storedData parsed))) in
      if bool_decide (preferredGame parsed ≠ "typing") then w |> navigate "/landing"
      else w |> generateInitialWord (storedData parsed) reply
  end.

(** Lines 100-102: the share of correct entries, in percent. *)
Definition shareCorrect (results : list TypingResult) : Q :=
  match results with
  | [] => 100
  | _ => inject_Z (Z.of_nat (length (filter (λ r, Entry.correct r = true) results)))
         / inject_Z (Z.of_nat (length results)) * 100
  end%Q.

Definition Qgeb (a b : Q) : bool := Qle_bool b a.
Definition Qltb (a b : Q) : bool := negb (Qle_bool b a).

(** Lines 106-112; [difficulty] is the closure's. *)
Definition adjustDifficulty (difficulty : Difficulty) (accuracy : Q) (s : State) : State :=
  if Qgeb accuracy 90 && bool_decide (difficulty ≠ hard) then setDifficulty hard s
  else if Qgeb accuracy 70 && Qltb accuracy 90 && bool_decide (difficulty ≠ medium)
       then setDifficulty medium s
  else if Qltb accuracy 70 && bool_decide (difficulty ≠ easy) then setDifficulty easy s
  else s.

Definition fallbackWords : list string := ["cat"; "dog"; "sun"; "tree"; "book"].

(** [fallbackWords[Math.floor(random * fallbackWords.length)]]; an index
    out of range reads [undefined], which every use treats like [""]. *)
Definition pickFallback (random : Q) : string :=
  default ""
    (fallbackWords !! Z.to_nat (Qfloor (random * inject_Z (Z.of_nat (length fallbackWords))))).

(** Lines 118-123: the word to take from the stored queue, with its index. *)
Definition queuedWord (closure : State) (data : ChildData) (st : SessionStorage)
    : option (nat * string) :=
  match targetedWords st !! sessionId data with
  | Some words =>
      if bool_decide (phase closure = targeted) then
        let currentIndex := default 0 (targetedWordIndex st !! sessionId data) in
        if currentIndex <? length words
        then Some (currentIndex, default "" (words !! currentIndex))
        else None
      else None
  | None => None
  end.

(** generateNextWord, lines 91-165.  [closure] is the render the function
    was created in: it supplies [childData], [results], [difficulty] and
    [phase].  [now] is the clock at line 132, [reply] the answer to the
    request of line 138, [random] the value of [Math.random()]. *)
Definition generateNextWord (closure : State) (now : Z) (reply : WordReply) (random : Q)
    (w : World) : World :=
  match childData closure with
  | None => w
  | Some data =>
      let accuracy := shareCorrect (results closure) in
      let w := w |> onState (setIsGeneratingWord true) |> onState (setError None)
                 |> onState (setCurrentWord "")
                 |> onState (setAccuracy accuracy)
                 |> onState (adjustDifficulty (difficulty closure) accuracy) in
      match queuedWord closure data (sessionStorage w) with
      | Some (currentIndex, word) =>
          w |> onState (setCurrentWord word)
            |> onStorage (setTargetedWordIndex (sessionId data) (currentIndex + 1))
            |> onState (setIsGeneratingWord false)
            |> onState (setStartTime (Some now))
      | None =>
          let w := w |> send (GenerateNextWord data (results closure) (phase closure)) in
          match reply with
          | WordOk word =>
              w |> onState (setCurrentWord word) |> onState (setIsGeneratingWord false)
          | _ =>
              w |> onState (setError (Some (caughtMessage reply)))
                |> onState (setIsGeneratingWord false)
                |> onState (setCurrentWord (pickFallback random))
          end
      end
  end.

(** ** Submitting a word *)

(** [!startTime]: [null] and [0] are falsy. *)
Definition startTimeFalsy (t : option Z) : bool :=
  match t with
  | None => true
  | Some t => bool_decide (t = 0%Z)
  end.

(** The guard of line 169: the handler returns at once when this holds. *)
Definition submitRejected (s : State) : bool :=
  falsy (currentWord s) || falsy (trim (input s)) || startTimeFalsy (startTime s).

(** Lines 171-196.  [endTime - startTime] reads a [null] start as [0]. *)
Definition entryOf (s : State) (endTime : Z) : TypingResult :=
  let timeSpent := (endTime - default 0 (startTime s))%Z in
  let userWord := userWordOf (input s) in
  let targetWord := targetWordOf (currentWord s) in
  let correct := bool_decide (userWord = targetWord) in
  let wordMistakes := countMistakes userWord targetWord in
  Entry.mk (currentWord s) userWord correct timeSpent wordMistakes.

(** Lines 211-224: one mark per position, [true] for a match. *)
Definition comparisonOf (inputWord currentWord : string) : list bool :=
  map (λ i,
         if (i <? String.length inputWord) && (i <? String.length currentWord)
         then bool_decide (charAt inputWord i = charToLowerCase <$> charAt currentWord i)
         else false)
      (seq 0 (Nat.max (String.length inputWord) (String.length currentWord))).

(** Lines 230-245. *)
Definition tipOf (inputWord currentWord : string) : Tip :=
  if bool_decide (String.length inputWord ≠ String.length currentWord) then
    if String.length inputWord <? String.length currentWord
    then TipMissedLetters else TipExtraLetters
  else
    TipFocusOn
      (omap (λ i,
               if bool_decide (charAt inputWord i ≠ charToLowerCase <$> charAt currentWord i)
               then Some (i, charAt inputWord i, charAt currentWord i)
               else None)
            (seq 0 (String.length inputWord))).

(** Lines 204-248; [accuracy] in the text is the closure's. *)
Definition feedbackOf (s : State) (entry : TypingResult) : Message :=
  if Entry.correct entry then MsgPerfect (Entry.timeSpent entry) (accuracy s)
  else
    let inputWord := userWordOf (input s) in
    MsgFeedback (currentWord s) inputWord (comparisonOf inputWord (currentWord s))
                (tipOf inputWord (currentWord s)).

(** handleSubmit, lines 167-352, up to its first [await].  The handler
    runs in the latest render, so its closure is the state of [w].
    Where it suspends, what it still holds is queued in [pending]. *)
Definition handleSubmit (endTime : Z) (w : World) : World :=
  let s := state w in
  if submitRejected s then w
  else
    let entry := entryOf s endTime in
    let newAccuracy :=
      newAccuracyOf (Entry.mistakes entry) (String.length (targetWordOf (currentWord s))) in
    let newResults := results s ++ [entry] in
    let w := w |> onState (λ prev, setTotalMistakes (totalMistakes prev + Entry.mistakes entry) prev)
               |> onState (λ prev, setAccuracy (rollingAverage newAccuracy (accuracy prev)) prev)
               |> onState (setResults newResults)
               |> onState (setInput "")
               |> onState (setWordCount (wordCount s + 1))
               |> onState (setMessage (Some (feedbackOf s entry)))
               |> later TimerClearMessage in
    if TOTAL_WORDS <=? wordCount s + 1 then
      match phase s, childData s with
      | initial, Some data =>
          w |> onState (setMessage (Some MsgAnalyzing))
            |> onState (setPhase analyzing)
            |> later (AwaitAnalysis data newResults)
      | targeted, Some data =>
          w |> onState (setMessage (Some MsgCompleting))
            |> later (AwaitFinish data newResults s)
      | _, _ => w
      end
    else w |> later (TimerGenerateNextWord s).

Definition analysisErrorText : string :=
  "Failed to analyze results and generate targeted words".

(** Lines 305-322: what runs once the targeted words have arrived.  The
    updater of [setResults] receives the results of that moment and
    writes them under [firstSetResults_<id>]. *)
Definition enterTargeted (data : ChildData) (words : list string) (shownAt : Z)
    (w : World) : World :=
  w |> onStorage (setTargetedWords (sessionId data) words)
    |> onStorage (setTargetedWordIndex (sessionId data) 0)
    |> (λ w, w |> onStorage (setFirstSetResults (sessionId data) (results (state w)))
               |> onState (setResults []))
    |> onState (setWordCount 0)
    |> onState (setPhase targeted)
    |> onState (setIsGeneratingWord true)
    |> onState (setCurrentWord (default "" (words !! 0)))
    |> onState (setIsGeneratingWord false)
    |> onState (setStartTime (Some shownAt)).

(** handleSubmit, lines 260-328: the analysis branch from its first
    [await] on, with the two answers of the server. *)
Definition resumeAnalysis (data : ChildData) (newResults : list TypingResult)
    (analysisReply : AnalysisReply) (targetedReply : TargetedReply) (shownAt : Z)
    (w : World) : World :=
  let w := w |> send (AnalyzeTypingResults data newResults) in
  match analysisReply with
  | AnalysisThrows => w |> onState (setError (Some analysisErrorText))
  | AnalysisUnsuccessful => w
  | AnalysisSuccess a =>
      let w := w |> onState (setAnalysis (Some a))
                 |> onState (setMessage (Some (MsgFirstSetCompleted (problematicLetters a))))
                 |> send (GenerateTargetedWords data a) in
      match targetedReply with
      | TargetedThrows => w |> onState (setError (Some analysisErrorText))
      | TargetedUnsuccessful => w
      | TargetedSuccess words => enterTargeted data words shownAt w
      end
  end.

(** saveResults, lines 354-399; [childData] and [analysis] are the closure's. *)
Definition saveResults (closure : State) (finalResults : list TypingResult)
    (reply : SaveReply) (w : World) : World :=
  match childData closure with
  | None => w
  | Some data =>
      let w := w |> onState (setLoading true)
                 |> send (SaveTypingResults data finalResults (analysis closure) true) in
      match reply with
      | SaveOk (Some finalAnalysis) =>
          w |> onState (setAnalysis (Some finalAnalysis))
            |> onState (setMessage (Some (MsgAssessmentComplete true)))
            |> later (TimerNavigate "/landing")
      | SaveOk None =>
          w |> onState (setMessage (Some (MsgAssessmentComplete false)))
            |> later (TimerNavigate "/landing")
      | SaveNotOk e =>
          w |> onState (setMessage (Some (MsgSaveFailed (orElse e "Failed to save results"))))
            |> onState (setLoading false)
      | SaveThrows =>
          w |> onState (setMessage (Some MsgSaveNetworkError))
            |> onState (setLoading false)
      end
  end.

(** Line 338: [[...firstSetResults, ...newResults]]. *)
Definition mergeResults (firstSetResults newResults : list TypingResult) : list TypingResult :=
  firstSetResults ++ newResults.

(** handleSubmit, lines 334-344: the second set is complete. *)
Definition resumeFinish (data : ChildData) (newResults : list TypingResult)
    (closure : State) (reply : SaveReply) (w : World) : World :=
  let firstSet := default [] (firstSetResults (sessionStorage w) !! sessionId data) in
  let allResults := mergeResults firstSet newResults in
  w |> saveResults closure allResults reply
    |> onStorage (removeSessionKeys (sessionId data)).

(** ** Leaving early (the close button, lines 420-443) *)

Definition closeFinally (w : World) : World :=
  w |> onState (setSavingOnClose false) |> navigate "/landing".

Definition closeClick (w : World) : World :=
  let s := state w in
  if savingOnClose s then w
  else
    let w := w |> onState (setSavingOnClose true) in
    match results s, childData s with
    | _ :: _, Some data => w |> send (SaveOnClose data (results s)) |> later AwaitCloseSave
    | _, _ => closeFinally w
    end.

(** ** Sessions *)

(** What the render (lines 401-483) offers: nothing before [childData]
    is set, a loading card while the first word is fetched, and then the
    card with the close button; the form inside it is rendered while no
    word is being generated and is enabled while nothing is loading. *)
Definition cardShown (s : State) : bool :=
  match childData s with
  | Some _ => negb (loading s && (wordCount s =? 0))
  | None => false
  end.

Definition formEnabled (s : State) : bool :=
  cardShown s && negb (isGeneratingWord s) && negb (loading s).

(** What can happen to a mounted component: the user acts, a timer
    fires, or the server answers a suspended handler.  [k] is the
    position in [pending] of the timer or handler that runs. *)
Inductive Event :=
  | Change (value : string)
  | Submit (endTime : Z)
  | Close
  | ClearMessageFires (k : nat)
  | NextWordFires (k : nat) (now : Z) (reply : WordReply) (random : Q)
  | NavigateFires (k : nat)
  | AnalysisSettles (k : nat) (analysisReply : AnalysisReply)
      (targetedReply : TargetedReply) (shownAt : Z)
  | FinishSettles (k : nat) (reply : SaveReply)
  | CloseSaveSettles (k : nat).

Definition taken (k : nat) (w : World) : World := setPending (delete k (pending w)) w.

(** One event.  Once the component has navigated away it is unmounted
    and the session is over. *)
Definition step (w : World) (e : Event) : World :=
  match navigated w with
  | Some _ => w
  | None =>
      match e with
      | Change value => if formEnabled (state w) then w |> onState (setInput value) else w
      | Submit endTime => if formEnabled (state w) then w |> handleSubmit endTime else w
      | Close => if cardShown (state w) then w |> closeClick else w
      | ClearMessageFires k =>
          match pending w !! k with
          | Some TimerClearMessage => w |> taken k |> onState (setMessage None)
          | _ => w
          end
      | NextWordFires k now reply random =>
          match pending w !! k with
          | Some (TimerGenerateNextWord closure) =>
              w |> taken k |> generateNextWord closure now reply random
          | _ => w
          end
      | NavigateFires k =>
          match pending w !! k with
          | Some (TimerNavigate to) => w |> taken k |> navigate to
          | _ => w
          end
      | AnalysisSettles k analysisReply targetedReply shownAt =>
          match pending w !! k with
          | Some (AwaitAnalysis data newResults) =>
              w |> taken k |> resumeAnalysis data newResults analysisReply targetedReply shownAt
          | _ => w
          end
      | FinishSettles k reply =>
          match pending w !! k with
          | Some (AwaitFinish data newResults closure) =>
              w |> taken k |> resumeFinish data newResults closure reply
          | _ => w
          end
      | CloseSaveSettles k =>
          match pending w !! k with
          | Some AwaitCloseSave => w |> taken k |> closeFinally
          | _ => w
          end
      end
  end.

Definition run (w : World) (events : list Event) : World := fold_left step events w.

(** ** Vocabulary of the statements *)

(** A string of white space only. *)
Fixpoint allWhiteSpace (s : string) : bool :=
  match s with
  | EmptyString => true
  | String c r => isWhiteSpace c && allWhiteSpace r
  end.

(** The normalisation the specification describes for both strings:
    trim, then lower-case. *)
Definition normalized (s : string) : string := toLowerCase (trim s).

(** The state of a submission that passes the guard, shown [word] since
    [shownAt], with [typed] in the input box. *)
Definition typing (word typed : string) (shownAt : Z) : State :=
  initialState |> setCurrentWord word |> setInput typed |> setStartTime (Some shownAt).

(** The [accuracy] cell holds a percentage. *)
Definition accuracyInRange (w : World) : Prop := (0 <= accuracy (state w) <= 100)%Q.

(** A session to run the handlers on: the child [kid], mounted with an
    empty [sessionStorage], the first word ["cat"] on display. *)
Definition kid : ChildData := mkChildData "kid" "T1" "s1".

Definition mounted : World :=
  mount emptyStorage (Some (mkStoredChild kid "typing")) (WordOk "cat").

(** The same with the timer of the word on display running since
    [shownAt], so that submissions are accepted.  The component itself
    starts no timer for a word it fetches (see C7); the sessions below
    are given a running timer to begin with. *)
Definition timed (shownAt : Z) (w : World) : World :=
  w |> onState (setStartTime (Some shownAt)).

(** One round of a session: the child types and submits, the feedback
    is cleared, and the next word is generated 1600 ms later. *)
Record Round := mkRound {
  typed : string;
  submittedAt : Z;
  answer : WordReply;
  draw : Q
}.

Definition roundEvents (r : Round) : list Event :=
  [Change (typed r); Submit (submittedAt r); ClearMessageFires 0;
   NextWordFires 0 (submittedAt r + 1600) (answer r) (draw r)].

Definition play (w : World) (rounds : list Round) : World :=
  run w (concat (map roundEvents rounds)).

(** Scenario A of the specification: cat/cat, dog/dog, sun/son,
    tree/tree, book/book. *)
Definition scenarioA : list Round :=
  [mkRound "cat" 3000 (WordOk "dog") 0;
   mkRound "dog" 6000 (WordOk "sun") 0;
   mkRound "son" 9000 (WordOk "tree") 0;
   mkRound "tree" 12000 (WordOk "book") 0;
   mkRound "book" 15000 (WordOk "unused") 0].

Definition afterFirstSet : World := play (timed 1000 mounted) scenarioA.

Definition diagnosis : Analysis := mkAnalysis ["b"; "d"] [("b", "d")].

(** The analysis and the targeted words arrive: the second set starts. *)
Definition inSecondSet : World :=
  step afterFirstSet
    (AnalysisSettles 0 (AnalysisSuccess diagnosis) (TargetedSuccess ["bed"; "dab"]) 20000).

(** The second set: ["bed"] is on display, the queue gives ["bed"] again
    and then ["dab"], and the last two words are fetched. *)
Definition secondSetRounds : list Round :=
  [mkRound "bed" 23000 (WordOk "unused") 0;
   mkRound "bed" 26000 (WordOk "unused") 0;
   mkRound "dab" 29000 (WordOk "big") 0;
   mkRound "big" 32000 (WordOk "dig") 0].

(** Four attempts of the second set are in; the fifth is typed. *)
Definition beforeLastSubmit : World :=
  play inSecondSet secondSetRounds |> onState (setInput "dig").

(** No timer runs, nothing is recorded, nothing is pending, and [sent]
    is all that went to the server. *)
Definition idle (sent : list Request) (w : World) : Prop :=
  startTime (state w) = None
  ∧ results (state w) = []
  ∧ wordCount (state w) = 0
  ∧ phase (state w) = initial
  ∧ pending w = []
  ∧ requests w = sent.




(** During the first set the counter counts the recorded attempts and
    has not reached the size of a set. *)
Definition firstSetInvariant (w : World) : Prop :=
  phase (state w) = initial →
  length (results (state w)) = wordCount (state w) ∧ wordCount (state w) < TOTAL_WORDS.

(** Four attempts of the first set are in; the fifth is typed. *)
Definition fifthTyped : list Event :=
  concat (map roundEvents (take 4 scenarioA)) ++ [Change "book"].

Definition beforeFifthSubmit : World := run (timed 1000 mounted) fifthTyped.

(** A request for the next word that did not produce one. *)
Definition wordFailed (reply : WordReply) : Prop :=
  match reply with
  | WordOk _ => False
  | _ => True
  end.

(** A first set under way for the child [data]: a word is on display
    with its timer running, the form is enabled, nothing is pending. *)
Definition ready (data : ChildData) (w : World) : Prop :=
  navigated w = None
  ∧ pending w = []
  ∧ phase (state w) = initial
  ∧ childData (state w) = Some data
  ∧ falsy (currentWord (state w)) = false
  ∧ startTimeFalsy (startTime (state w)) = false
  ∧ loading (state w) = false
  ∧ isGeneratingWord (state w) = false
  ∧ length (results (state w)) = wordCount (state w).

(** A round in which something is typed and the word request fails. *)
Definition failingRound (r : Round) : Prop :=
  falsy (trim (typed r)) = false
  ∧ wordFailed (answer r)
  ∧ (0 <= draw r)%Q ∧ (draw r < 1)%Q.

(** Two rounds into the second set both stored words have been taken:
    the index has reached the end of the queue. *)
Definition queueExhausted : World := play inSecondSet (take 2 secondSetRounds).

(** Scenario C of the specification, with every word request failing. *)
Definition offlineRounds : list Round :=
  [mkRound "cat" 3000 (WordThrows "Failed to fetch") (1 # 2);
   mkRound "sun" 6000 (WordRefused None) 0;
   mkRound "cat" 9000 (WordThrows "") (9 # 10);
   mkRound "bok" 12000 (WordRefused (Some "quota")) (3 # 5);
   mkRound "tree" 15000 (WordThrows "Failed to fetch") 0].

(** One attempt into the second set. *)
Definition midSecondSet : World := run inSecondSet [Change "bed"; Submit 23000].

(** The save requests the close button has sent. *)
Definition isCloseSave (r : Request) : bool :=
  match r with
  | SaveOnClose _ _ => true
  | _ => false
  end.

Definition closeSaves (w : World) : list Request :=
  filter (λ r, isCloseSave r = true) (requests w).

(** The close handler has not run, or has run once and is still waiting
    for its request, or has left. *)
Definition closedAtMostOnce (w : World) : Prop :=
  length (closeSaves w) ≤ 1
  ∧ (navigated w = None → savingOnClose (state w) = false → closeSaves w = []).

From Stdlib Require Import Sorted.

(** ** The rest of the typing game's render *)

(** Line 502: [results.slice(-5).reverse()], the list under "Recent
    Results". *)
Definition recentResults (results : list TypingResult) : list TypingResult :=
  reverse (drop (length results - 5) results).

(** [s.includes(sub)] *)
Fixpoint includes (s sub : string) : bool :=
  String.prefix sub s
  || match s with
     | EmptyString => false
     | String _ r => includes r sub
     end.

Definition newline : string := String (ascii_of_nat 10) "".

(** The two marks of the comparison (lines 217 and 219); the first is
    also what the banner looks for (line 486). *)
Definition checkMark : string := "✓".
Definition crossMark : string := "✗".

(** Lines 211-224: the marks of the comparison, one after the other. *)
Definition comparisonText (comparison : list bool) : string :=
  foldr (λ matches rest, (if matches : bool then checkMark else crossMark) +:+ rest)
        "" comparison.

(** A character inside a template literal. *)
Definition interpolated (c : option ascii) : string :=
  match c with
  | Some c => String c ""
  | None => "undefined"
  end.

(** Lines 230-245: the text of the tip. *)
Definition tipText (tip : Tip) : string :=
  match tip with
  | TipMissedLetters => "Tip: Pay attention to word length. " +:+ "You missed some letters."
  | TipExtraLetters => "Tip: Pay attention to word length. " +:+ "You added extra letters."
  | TipFocusOn [] => ""
  | TipFocusOn diffPositions =>
      "Focus on: "
      +:+ String.concat ", "
            (map (λ d : nat * option ascii * option ascii,
                    "'" +:+ interpolated d.2 +:+ "' (typed '" +:+ interpolated d.1.2 +:+ "')")
                 diffPositions)
  end.

(** Lines 208-247: the text [setMessage] receives for an attempt that is
    not correct. *)
Definition feedbackText (currentWord inputWord : string) (comparison : list bool)
    (tip : Tip) : string :=
  "The word was: " +:+ currentWord +:+ newline
  +:+ "Your typing: " +:+ inputWord +:+ newline
  +:+ "Accuracy:   " +:+ comparisonText comparison +:+ newline +:+ newline
  +:+ tipText tip.

(** The texts of the [message] cell (lines 205, 208-247, 257, 280-285,
    331, 381-385, 392 and 396).  [fixed1] stands for [toFixed(1)], the
    number formatting of line 205, which is left open. *)
Definition messageText (fixed1 : Q → string) (m : Message) : string :=
  match m with
  | MsgPerfect timeSpent accuracy =>
      checkMark +:+ " Perfect! Time: " +:+ fixed1 (inject_Z timeSpent / 1000)%Q +:+ "s"
      +:+ newline +:+ "Accuracy: " +:+ fixed1 accuracy +:+ "%"
  | MsgFeedback currentWord inputWord comparison tip =>
      feedbackText currentWord inputWord comparison tip
  | MsgAnalyzing => "Analyzing your typing patterns..."
  | MsgFirstSetCompleted lettersToFocusOn =>
      "First set completed!" +:+ newline +:+ newline
      +:+ match lettersToFocusOn with
          | [] => ""
          | _ => "Letters to focus on: " +:+ String.concat ", " lettersToFocusOn +:+ newline
          end
      +:+ newline +:+ "Let's practice with some targeted words..."
  | MsgCompleting => "Completing final analysis..."
  | MsgAssessmentComplete true =>
      "🎉 Assessment complete!" +:+ newline
      +:+ "Your results have been saved and will help your therapist understand your progress."
  | MsgAssessmentComplete false => "🎉 Assessment complete! Results saved."
  | MsgSaveFailed text => text
  | MsgSaveNetworkError => "Network error while saving results"
  end.

(** Line 486: the [correct] prop of the feedback banner. *)
Definition bannerCorrect (text : string) : bool := includes text checkMark.

(** Lines 485-489: the banner is rendered for a message that is not
    empty; what is returned is its [correct] prop. *)
Definition banner (fixed1 : Q → string) (s : State) : option bool :=
  match message s with
  | Some m =>
      let text := messageText fixed1 m in
      if falsy text then None else Some (bannerCorrect text)
  | None => None
  end.

(** Lines 254, 255 and 329: the attempt is the last of its set, and the
    handler goes on to the analysis or to the save. *)
Definition completesSet (s : State) : bool :=
  (TOTAL_WORDS <=? wordCount s + 1)
  && match phase s, childData s with
     | initial, Some _ | targeted, Some _ => true
     | _, _ => false
     end.

(** A word of ASCII characters.  On such a word JavaScript's
    [toLowerCase] of the whole word (line 174) gives the word of the
    lower-cased characters (lines 216 and 236), as [toLowerCase] and
    [charToLowerCase] do here; on other words the two can differ (a
    capital sigma at the end of a word, for one). *)
Fixpoint isAscii (s : string) : bool :=
  match s with
  | EmptyString => true
  | String c r => (nat_of_ascii c <? 128) && isAscii r
  end.

(** The positions a "Focus on" tip lists. *)
Definition focusPositions (tip : Tip) : list nat :=
  match tip with
  | TipFocusOn diffPositions => map (λ d : nat * option ascii * option ascii, d.1.1) diffPositions
  | _ => []
  end.

(** Lines 106-112 read as a table: the tier an accuracy belongs to. *)
Definition tierOf (accuracy : Q) : Difficulty :=
  if Qgeb accuracy 90 then hard else if Qgeb accuracy 70 then medium else easy.

(** The first word could not be fetched: no word is on display and the
    error text is up. *)
Definition wordless (text : string) (w : World) : Prop :=
  currentWord (state w) = ""
  ∧ error (state w) = Some text
  ∧ startTime (state w) = None
  ∧ results (state w) = []
  ∧ pending w = [].

(** ** Runs of the next-word generator *)

(** One call of [generateNextWord], with what the call finds.  In
    [generateNextWords] every call returns before the next one starts. *)
Record NextWordCall := mkCall {
  callClosure : State;
  callNow : Z;
  callReply : WordReply;
  callRandom : Q
}.

Definition generateNextWords (w : World) (calls : list NextWordCall) : World :=
  fold_left
    (λ w c, generateNextWord (callClosure c) (callNow c) (callReply c) (callRandom c) w)
    calls w.

(** Where generateNextWord takes a word from the stored queue, the wait
    of line 126 cuts the call in two, and other handlers, other calls
    of the generator among them, can run in between.  Lines 92-123: up
    to the wait; the call goes on holding the index it has read and the
    word at that index. *)
Definition generateNextWord_read (closure : State) (w : World)
    : World * option (ChildData * nat * string) :=
  match childData closure with
  | None => (w, None)
  | Some data =>
      let accuracy := shareCorrect (results closure) in
      let w := w |> onState (setIsGeneratingWord true) |> onState (setError None)
                 |> onState (setCurrentWord "")
                 |> onState (setAccuracy accuracy)
                 |> onState (adjustDifficulty (difficulty closure) accuracy) in
      (w, (λ found : nat * string, (data, found.1, found.2))
            <$> queuedWord closure data (sessionStorage w))
  end.

(** Lines 129-132: after the wait, at the clock reading [now]. *)
Definition generateNextWord_show (held : ChildData * nat * string) (now : Z) (w : World)
    : World :=
  w |> onState (setCurrentWord held.2)
    |> onStorage (setTargetedWordIndex (sessionId held.1.1) (held.1.2 + 1))
    |> onState (setIsGeneratingWord false)
    |> onState (setStartTime (Some now)).

(** A call made in the second set of the child [data]. *)
Definition targetedCall (data : ChildData) (c : NextWordCall) : Prop :=
  childData (callClosure c) = Some data ∧ phase (callClosure c) = targeted.

(** A pending item that will not put a word on display. *)
Definition wordFree (p : Pending) : Prop :=
  match p with
  | TimerGenerateNextWord _ | AwaitAnalysis _ _ => False
  | _ => True
  end.

(** The second set has no word to show and none on the way. *)
Definition blank (w : World) : Prop :=
  currentWord (state w) = "" ∧ results (state w) = [] ∧ Forall wordFree (pending w).

(** A save that did not go through. *)
Definition saveFailed (reply : SaveReply) : Prop :=
  match reply with
  | SaveOk _ => False
  | _ => True
  end.

(** What [sessionStorage] holds for one session id. *)
Definition keysOf (id : string) (st : SessionStorage)
    : option (list string) * option nat * option (list TypingResult) :=
  (targetedWords st !! id, targetedWordIndex st !! id, firstSetResults st !! id).

(** * The therapist's views

    [TherapistTypingDashboard.tsx] lists the children of a therapist
    and, for the child picked, one card per typing session;
    [TypingAssessmentView.tsx] shows the analysis of the session
    picked. *)

Module Dashboard.

(** A row of [typingResults]. *)
Record Row := mkRow {
  word : string;
  input : string;
  correct : bool;
  completedAt : string
}.

(** A session as the server lists it.  [date] is the time value
    [new Date(session.date).getTime()]; [typingResults] is read with
    [?.], so it may be missing. *)
Record ChildSession := mkSession {
  sessionId : string;
  date : Z;
  phase : string;
  typingResults : option (list Row)
}.

Record Child := mkChild {
  username : string;
  sessions : list ChildSession
}.

(** [s.typingResults?.length > 0] *)
Definition hasTypingResults (s : ChildSession) : bool :=
  match typingResults s with
  | Some (_ :: _) => true
  | _ => false
  end.

(** Line 85: the number next to a child's name. *)
Definition typingSessionCount (c : Child) : nat :=
  length (filter (λ s, hasTypingResults s = true) (sessions c)).

(** Line 106: the comparison function handed to [sort]. *)
Definition compareSessions (a b : ChildSession) : Z := (date b - date a)%Z.

(** [Array.prototype.sort] with a comparison function.  The sort is
    stable, so its result does not depend on the algorithm; here each
    element is inserted into the sorted rest, going behind an element
    only when the comparison is positive. *)
Fixpoint insertSorted {A : Type} (compare : A → A → Z) (x : A) (sorted : list A) : list A :=
  match sorted with
  | [] => [x]
  | y :: rest =>
      if (0 <? compare x y)%Z then y :: insertSorted compare x rest else x :: sorted
  end.

Fixpoint sort {A : Type} (compare : A → A → Z) (l : list A) : list A :=
  match l with
  | [] => []
  | x :: rest => insertSorted compare x (sort compare rest)
  end.

(** Lines 104-107: the cards of the child picked. *)
Definition sessionCards (c : Child) : list ChildSession :=
  sort compareSessions (filter (λ s, hasTypingResults s = true) (sessions c)).

(** Line 118: "Words". *)
Definition cardWords (s : ChildSession) : nat := length (default [] (typingResults s)).

(** [Math.round(x)] *)
Definition round (x : Q) : Z := Qfloor (x + (1 # 2))%Q.

(** Lines 121-125: "Accuracy", in percent. *)
Definition cardAccuracy (s : ChildSession) : Z :=
  let typingResults := default [] (typingResults s) in
  round (inject_Z (Z.of_nat (length (filter (λ r, correct r = true) typingResults)))
         / inject_Z (Z.of_nat (length typingResults)) * 100)%Q.

(** Newest first. *)
Definition newerOrEqual (a b : ChildSession) : Prop := (date b ≤ date a)%Z.

End Dashboard.

Module AssessmentView.

Record Summary := mkSummary {
  totalWords : nat;
  overallAccuracy : string;
  completedPhases : list string;
  averageTimePerWord : string
}.

Record DyslexiaPatterns := mkPatterns {
  letterReversals : list string;
  visualConfusions : list string;
  phoneticConfusions : list string;
  persistentChallenges : list string
}.

Record Progress := mkProgress {
  initialPhaseAccuracy : string;
  targetedPhaseAccuracy : string;
  improvement : string;
  areasImproved : list string;
  remainingChallenges : list string
}.

Record Recommendations := mkRecommendations {
  focusAreas : list string;
  suggestedExercises : list string;
  nextSteps : list string
}.

Record TypingAnalysis := mkTypingAnalysis {
  summary : Summary;
  dyslexiaPatterns : DyslexiaPatterns;
  progress : Progress;
  recommendations : Recommendations
}.

Record SessionDetails := mkDetails {
  childName : string;
  sessionDate : string;
  phase : string;
  analysis : TypingAnalysis
}.

(** The three [useState] cells (lines 44-46). *)
Record ViewState := mkView {
  loading : bool;
  error : option string;
  sessionData : option SessionDetails
}.

Definition initialView : ViewState := mkView true None None.

(** What the server answers to the request of line 54. *)
Inductive FetchReply :=
  | FetchOk (data : SessionDetails)
  | FetchRefused (error : option string)
  | FetchThrows (message : string).

(** fetchSessionAnalysis, lines 52-73, with the answer it gets.  The
    component stays mounted while the session picked changes, so the
    cells are those the previous answers left. *)
Definition fetchSessionAnalysis (reply : FetchReply) (s : ViewState) : ViewState :=
  let s :=
    match reply with
    | FetchOk data => mkView (loading s) (error s) (Some data)
    | FetchRefused e =>
        mkView (loading s) (Some (orElse e "Failed to fetch analysis")) (sessionData s)
    | FetchThrows message => mkView (loading s) (Some message) (sessionData s)
    end in
  mkView false (error s) (sessionData s).

(** The answers of a mounted view, in the order they arrive. *)
Definition fetches (s : ViewState) (replies : list FetchReply) : ViewState :=
  fold_left (λ s reply, fetchSessionAnalysis reply s) replies s.

(** What the component returns (lines 75-77 and on). *)
Inductive Screen :=
  | LoadingScreen
  | ErrorScreen (text : string)
  | NoDataScreen
  | AnalysisScreen (data : SessionDetails).

Definition render (s : ViewState) : Screen :=
  if loading s then LoadingScreen
  else
    match error s with
    | Some text =>
        if falsy text then
          match sessionData s with
          | None => NoDataScreen
          | Some data => AnalysisScreen data
          end
        else ErrorScreen text
    | None =>
        match sessionData s with
        | None => NoDataScreen
        | Some data => AnalysisScreen data
        end
    end.

(** The error text a failed answer leaves in the [error] cell. *)
Definition failureText (reply : FetchReply) : option string :=
  match reply with
  | FetchOk _ => None
  | FetchRefused e => Some (orElse e "Failed to fetch analysis")
  | FetchThrows message => Some message
  end.

Definition succeeded (reply : FetchReply) : Prop :=
  match reply with
  | FetchOk _ => True
  | _ => False
  end.

End AssessmentView.

(** ** Sample data for the therapist's views *)

Definition sampleChild : Dashboard.Child :=
  Dashboard.mkChild "kid"
    [Dashboard.mkSession "s1" 1000 "initial"
       (Some [Dashboard.mkRow "cat" "cat" true "t1"; Dashboard.mkRow "sun" "son" false "t2"]);
     Dashboard.mkSession "s2" 3000 "targeted" None;
     Dashboard.mkSession "s3" 2000 "targeted" (Some []);
     Dashboard.mkSession "s4" 3000 "completed"
       (Some [Dashboard.mkRow "bed" "bed" true "t3"])].

Definition sampleDetails (name : string) : AssessmentView.SessionDetails :=
  AssessmentView.mkDetails name "2025-01-01" "completed"
    (AssessmentView.mkTypingAnalysis
       (AssessmentView.mkSummary 10 "80%" ["initial"; "targeted"] "2.5s")
       (AssessmentView.mkPatterns ["b/d"] [] [] [])
       (AssessmentView.mkProgress "70%" "90%" "20%" ["b"] [])
       (AssessmentView.mkRecommendations [] [] [])).

(** * Properties *)

(** ** Scoring *)

Section Scoring.

Lemma toLowerCase_length (s : string) : String.length (toLowerCase s) = String.length s.
Proof. induction s as [|c r IH]; simpl; [done | by rewrite IH]. Qed.

Lemma charAt_in_range (s : string) (i : nat) :
  i < String.length s → is_Some (charAt s i).
Proof.
  revert i. induction s as [|c r IH]; intros i Hi; simpl in *; [lia|].
  destruct i as [|i]; [by eexists|]. apply IH. lia.
Qed.

(** The loop adds, to its counter, the number of differing positions
    among the ones it visits. *)
Lemma mistakesLoop_filter (u t : string) (steps i acc : nat) :
  mistakesLoop u t i steps acc
  = acc + length (filter (λ j, charAt u j ≠ charAt t j) (seq i steps)).
Proof.
  revert i acc. induction steps as [|steps IH]; intros i acc; simpl; [lia|].
  rewrite IH, filter_cons. unfold charDiffers.
  case_bool_decide; case_decide; simpl; try done; lia.
Qed.

Lemma mistakesLoop_acc (u t : string) (steps i acc : nat) :
  mistakesLoop u t i steps acc = acc + mistakesLoop u t i steps 0.
Proof. rewrite !mistakesLoop_filter. lia. Qed.

Lemma mistakesLoop_tail (x y : ascii) (u t : string) (steps i acc : nat) :
  mistakesLoop (String x u) (String y t) (S i) steps acc = mistakesLoop u t i steps acc.
Proof.
  revert i acc. induction steps as [|steps IH]; intros i acc; simpl; [done|].
  by rewrite IH.
Qed.

(** Against an empty string every visited position is a mistake. *)
Lemma mistakesLoop_one_sided (u t : string) (steps i acc : nat) :
  u = "" ∨ t = "" →
  i + steps ≤ Nat.max (String.length u) (String.length t) →
  mistakesLoop u t i steps acc = acc + steps.
Proof.
  intros Hempty. revert i acc.
  induction steps as [|steps IH]; intros i acc Hle; simpl; [lia|].
  rewrite IH by lia.
  assert (charDiffers u t i = true) as ->; [|lia].
  unfold charDiffers. apply bool_decide_eq_true.
  destruct Hempty as [-> | ->]; simpl in *.
  - destruct (charAt_in_range t i) as [c ->]; [lia | done].
  - destruct (charAt_in_range u i) as [c ->]; [lia | done].
Qed.

Lemma countMistakes_positions (u t : string) :
  countMistakes u t = length (mismatchPositions u t).
Proof. unfold countMistakes, mismatchPositions. by rewrite mistakesLoop_filter. Qed.

Lemma countMistakes_hamming (u t : string) : countMistakes u t = hamming u t.
Proof.
  revert t. induction u as [|x u IH]; intros t.
  - unfold countMistakes. rewrite mistakesLoop_one_sided; simpl; auto.
  - destruct t as [|y t].
    + unfold countMistakes. rewrite mistakesLoop_one_sided; simpl; auto.
    + unfold countMistakes in *. simpl.
      rewrite mistakesLoop_tail, mistakesLoop_acc, IH.
      unfold charDiffers. simpl.
      destruct (decide (x = y)) as [->|Hxy].
      * rewrite (bool_decide_eq_true_2 (y = y)) by done.
        rewrite bool_decide_eq_false_2 by auto. done.
      * rewrite (bool_decide_eq_false_2 (x = y)) by done.
        rewrite bool_decide_eq_true_2 by congruence. done.
Qed.

(** Scenario B of the specification. *)
Example book_boko : countMistakes (userWordOf "boko") (targetWordOf "book") = 2.
Proof. reflexivity. Qed.

(** C3 as the specification states it fails: the positions are counted
    on the typed word trimmed and lower-cased and on the target
    lower-cased but not trimmed.  For a target that arrives as ["cat "]
    and the typed word ["cat"] the two normalized strings are equal,
    have the same length and differ at no position, yet the loop counts
    one mistake: the target's trailing space against the end of the
    typed word. *)
Lemma C3_counterexample :
  Entry.mistakes (entryOf (typing "cat " "cat" 1000) 2500) = 1
  ∧ length (mismatchPositions (normalized "cat") (normalized "cat ")) = 0
  ∧ String.length (normalized "cat") = String.length (normalized "cat ")
  ∧ hamming (normalized "cat") (normalized "cat ") = 0.
Proof. repeat split; reflexivity. Qed.

(** C3, amended: the mistake count of an entry is the number of
    positions below the longer length at which the typed word (trimmed,
    lower-cased) and the target (lower-cased, not trimmed) differ, a
    position past the end of either word being a difference; when the
    two have the same length it is their Hamming distance ignoring
    case. *)
Theorem C3_mistake_count (s : State) (endTime : Z) :
  let userWord := userWordOf (input s) in
  let targetWord := targetWordOf (currentWord s) in
  Entry.mistakes (entryOf s endTime) = length (mismatchPositions userWord targetWord)
  ∧ (∀ i, i ∈ mismatchPositions userWord targetWord ↔
          i < Nat.max (String.length userWord) (String.length targetWord)
          ∧ charAt userWord i ≠ charAt targetWord i)
  ∧ (String.length (trim (input s)) = String.length (currentWord s) →
     Entry.mistakes (entryOf s endTime)
     = hammingIgnoringCase (trim (input s)) (currentWord s)).
Proof.
  intros userWord targetWord. split; [|split].
  - apply countMistakes_positions.
  - intros i. unfold mismatchPositions.
    rewrite list_elem_of_filter, elem_of_seq. simpl. intuition lia.
  - intros _. apply countMistakes_hamming.
Qed.

Lemma C3_mistake_count_witness :
  Entry.mistakes (entryOf (typing "Book" " boko " 1000) 2500) = 2
  ∧ hammingIgnoringCase (trim " boko ") "Book" = 2.
Proof.
  pose proof (C3_mistake_count (typing "Book" " boko " 1000) 2500) as (_ & _ & H).
  split; [|reflexivity]. rewrite H; reflexivity.
Defined.

End Scoring.

(** ** Normalisation and the [correct] flag *)

Section Normalisation.

Lemma trimStart_padding (pre x : string) :
  allWhiteSpace pre = true → trimStart (pre +:+ x) = trimStart x.
Proof.
  induction pre as [|c pre IH]; simpl; [done|].
  intros [Hc Hpre]%andb_true_iff. rewrite Hc. auto.
Qed.

Lemma trimStart_whitespace (pre : string) :
  allWhiteSpace pre = true → trimStart pre = "".
Proof.
  induction pre as [|c pre IH]; simpl; [done|].
  intros [Hc Hpre]%andb_true_iff. rewrite Hc. auto.
Qed.

Lemma trimEnd_whitespace (post : string) :
  allWhiteSpace post = true → trimEnd post = "".
Proof.
  induction post as [|c post IH]; simpl; [done|].
  intros [Hc Hpost]%andb_true_iff. by rewrite IH, Hc.
Qed.

Lemma trimEnd_padding (x post : string) :
  allWhiteSpace post = true → trimEnd (x +:+ post) = trimEnd x.
Proof.
  intros Hpost. induction x as [|c x IH]; simpl.
  - by apply trimEnd_whitespace.
  - by rewrite IH.
Qed.

Lemma trim_padding_end (x post : string) :
  allWhiteSpace post = true → trim (x +:+ post) = trim x.
Proof.
  intros Hpost. unfold trim. induction x as [|c x IH]; simpl.
  - by rewrite trimStart_whitespace.
  - destruct (isWhiteSpace c); [done|].
    change (String c (x +:+ post)) with (String c x +:+ post).
    by apply trimEnd_padding.
Qed.

Lemma trim_padding (pre x post : string) :
  allWhiteSpace pre = true → allWhiteSpace post = true →
  trim (pre +:+ x +:+ post) = trim x.
Proof.
  intros Hpre Hpost. unfold trim at 1.
  rewrite trimStart_padding by done. by apply trim_padding_end.
Qed.

(** C4 as the specification states it fails: the target is lower-cased
    but never trimmed.  A target that arrives as ["cat "] and the
    typed word ["cat"] are equal after trimming and lower-casing both,
    yet the entry is marked incorrect. *)
Lemma C4_counterexample :
  normalized "cat " = normalized "cat"
  ∧ Entry.correct (entryOf (typing "cat " "cat" 1000) 2500) = false.
Proof. split; reflexivity. Qed.

(** C4, amended: the typed word is trimmed and lower-cased, the target
    is only lower-cased; [correct] holds exactly when the two results
    are equal, so it does not depend on white space around the typed
    word (white space around the target does count). *)
Theorem C4_correct_flag (s : State) (endTime : Z) :
  (Entry.correct (entryOf s endTime) = true
   ↔ toLowerCase (trim (input s)) = toLowerCase (currentWord s))
  ∧ (∀ pre post : string,
       allWhiteSpace pre = true → allWhiteSpace post = true →
       Entry.correct (entryOf (setInput (pre +:+ input s +:+ post) s) endTime)
       = Entry.correct (entryOf s endTime)).
Proof.
  split.
  - unfold entryOf, userWordOf, targetWordOf. simpl. apply bool_decide_eq_true.
  - intros pre post Hpre Hpost.
    unfold entryOf, userWordOf. simpl. by rewrite trim_padding.
Qed.

Lemma C4_correct_flag_witness :
  Entry.correct (entryOf (setInput ("  " +:+ "Cat" +:+ " ") (typing "cat" "Cat" 1000)) 2500)
  = Entry.correct (entryOf (typing "cat" "Cat" 1000) 2500).
Proof.
  apply (proj2 (C4_correct_flag (typing "cat" "Cat" 1000) 2500) "  " " ");
    reflexivity.
Defined.

End Normalisation.

(** ** Rolling accuracy *)

Section Accuracy.
#[local] Open Scope Q_scope.

Lemma newAccuracyOf_bounds (m n : nat) : 0 <= newAccuracyOf m n <= 100.
Proof.
  unfold newAccuracyOf. split.
  - apply Q.le_max_l.
  - apply Q.max_lub; [discriminate | apply Q.le_min_l].
Qed.

Lemma ratio_bounds (k n : nat) :
  (k ≤ n)%nat → (0 < n)%nat → 0 <= inject_Z (Z.of_nat k) / inject_Z (Z.of_nat n) <= 1.
Proof.
  intros Hkn Hn.
  assert (0 < inject_Z (Z.of_nat n)) as Hpos.
  { change 0 with (inject_Z 0). rewrite <- Zlt_Qlt. lia. }
  split.
  - apply Qle_shift_div_l; [done|]. rewrite Qmult_0_l.
    change 0 with (inject_Z 0). rewrite <- Zle_Qle. lia.
  - apply Qle_shift_div_r; [done|]. rewrite Qmult_1_l.
    rewrite <- Zle_Qle. lia.
Qed.

Lemma newAccuracyOf_unclamped (m n : nat) :
  (m ≤ n)%nat → (0 < n)%nat →
  newAccuracyOf m n == (1 - inject_Z (Z.of_nat m) / inject_Z (Z.of_nat n)) * 100.
Proof.
  intros Hmn Hn. pose proof (ratio_bounds m n Hmn Hn) as [H0 H1].
  unfold newAccuracyOf.
  rewrite Q.min_r by lra. rewrite Q.max_r by lra. reflexivity.
Qed.

Lemma newAccuracyOf_floor (m n : nat) :
  (n < m)%nat → (0 < n)%nat → newAccuracyOf m n == 0.
Proof.
  intros Hmn Hn.
  assert (0 < inject_Z (Z.of_nat n)) as Hpos.
  { change 0 with (inject_Z 0). rewrite <- Zlt_Qlt. lia. }
  assert (1 <= inject_Z (Z.of_nat m) / inject_Z (Z.of_nat n)) as H1.
  { apply Qle_shift_div_l; [done|]. rewrite Qmult_1_l. rewrite <- Zle_Qle. lia. }
  unfold newAccuracyOf.
  rewrite Q.min_r by lra. rewrite Q.max_l by lra. reflexivity.
Qed.

Lemma rollingAverage_bounds (newAccuracy prev : Q) :
  0 <= newAccuracy <= 100 → 0 <= prev <= 100 →
  0 <= rollingAverage newAccuracy prev <= 100.
Proof.
  intros [? ?] [? ?]. unfold rollingAverage. 
  split.
  - apply Qle_shift_div_l; lra.
  - apply Qle_shift_div_r; lra.
Qed.

Lemma shareCorrect_bounds (rs : list TypingResult) : 0 <= shareCorrect rs <= 100.
Proof.
  destruct rs as [|r rs]; [split; discriminate|].
  unfold shareCorrect.
  set (l := r :: rs).
  pose proof (ratio_bounds (length (filter (λ r, Entry.correct r = true) l)) (length l)) as [H0 H1].
  - apply length_filter.
  - simpl. lia.
  - lra.
Qed.

Lemma handleSubmit_accuracy (endTime : Z) (w : World) :
  submitRejected (state w) = false →
  accuracy (state (handleSubmit endTime w))
  = rollingAverage
      (newAccuracyOf (Entry.mistakes (entryOf (state w) endTime))
                     (String.length (targetWordOf (currentWord (state w)))))
      (accuracy (state w)).
Proof.
  intros Hguard. unfold handleSubmit. rewrite Hguard.
  repeat case_match; reflexivity.
Qed.

Lemma generateNextWord_accuracy closure now reply random w data :
  childData closure = Some data →
  accuracy (state (generateNextWord closure now reply random w)) = shareCorrect (results closure).
Proof.
  intros Hdata. unfold generateNextWord, adjustDifficulty. rewrite Hdata.
  repeat case_match; reflexivity.
Qed.

Lemma step_accuracyInRange (w : World) (e : Event) :
  accuracyInRange w → accuracyInRange (step w e).
Proof.
  unfold accuracyInRange. intros Hw.
  unfold step. repeat case_match; try done; subst.
  - destruct (submitRejected (state w)) eqn:Hguard.
    + unfold handleSubmit. by rewrite Hguard.
    + rewrite handleSubmit_accuracy by done.
      apply rollingAverage_bounds; [apply newAccuracyOf_bounds | done].
  - unfold closeClick, closeFinally. repeat case_match; done.
  - destruct (childData closure) as [data|] eqn:Hdata.
    + erewrite generateNextWord_accuracy by done. apply shareCorrect_bounds.
    + unfold generateNextWord. by rewrite Hdata.
  - unfold resumeAnalysis, enterTargeted. repeat case_match; done.
  - unfold resumeFinish, saveResults. repeat case_match; done.
Qed.

Lemma run_accuracyInRange (events : list Event) (w : World) :
  accuracyInRange w → accuracyInRange (run w events).
Proof.
  revert w. induction events as [|e events IH]; intros w Hw; simpl; [done|].
  apply IH. by apply step_accuracyInRange.
Qed.


Lemma accepted_target_nonempty (s : State) :
  submitRejected s = false → (0 < String.length (targetWordOf (currentWord s)))%nat.
Proof.
  unfold submitRejected, falsy, targetWordOf.
  intros [[Hword _]%orb_false_iff _]%orb_false_iff.
  apply bool_decide_eq_false in Hword. rewrite toLowerCase_length.
  destruct (currentWord s); simpl; [done | lia].
Qed.

(** C5 as the specification states it fails: the rolling update is
    not the only writer of the cell.  After ["cot"] for ["cat"] the
    cell holds 250/3; the next word generation overwrites it with the
    share of correct results of the render that scheduled it (100, as
    that render had no results yet), so after a correct ["dog"] the
    cell holds 100 and not the rolling value 275/3. *)
Lemma C5_counterexample :
  let afterMiss := run (timed 1000 mounted) [Change "cot"; Submit 3000] in
  let afterNextWord :=
    run afterMiss [ClearMessageFires 0; NextWordFires 0 4600 (WordOk "dog") 0] in
  let afterHit := run afterNextWord [Change "dog"; Submit 6000] in
  accuracy (state afterMiss) == 250 # 3
  ∧ accuracy (state afterNextWord) == 100
  ∧ accuracy (state afterHit) == 100
  ∧ rollingAverage (newAccuracyOf 0 3) (rollingAverage (newAccuracyOf 1 3) 100) == 275 # 3
  ∧ ¬ accuracy (state afterHit)
      == rollingAverage (newAccuracyOf 0 3) (rollingAverage (newAccuracyOf 1 3) 100).
Proof. vm_compute. repeat split; discriminate. Qed.

(** C5, amended: a scored attempt sets the accuracy to
    [(previous + perWord) / 2], where [perWord] is
    [(1 - mistakes / len(target)) * 100] kept within 0 and 100; each
    next-word generation then overwrites the cell with the percentage
    of correct entries among the results of the render that scheduled
    it (100 when there are none); under both updates, and every other
    event, the accuracy stays within 0 and 100. *)
Theorem C5_accuracy_updates (w : World) (endTime : Z) :
  submitRejected (state w) = false →
  let m := Entry.mistakes (entryOf (state w) endTime) in
  let n := String.length (targetWordOf (currentWord (state w))) in
  let perWord := newAccuracyOf m n in
  accuracy (state (handleSubmit endTime w)) == (accuracy (state w) + perWord) / 2
  ∧ 0 <= perWord <= 100
  ∧ ((m ≤ n)%nat → perWord == (1 - inject_Z (Z.of_nat m) / inject_Z (Z.of_nat n)) * 100)
  ∧ ((n < m)%nat → perWord == 0)
  ∧ (∀ closure now reply random data,
       childData closure = Some data →
       accuracy (state (generateNextWord closure now reply random (handleSubmit endTime w)))
       = shareCorrect (results closure))
  ∧ (∀ events, accuracyInRange w → accuracyInRange (run w events)).
Proof.
  intros Hguard m n perWord.
  pose proof (accepted_target_nonempty _ Hguard) as Hn.
  repeat split.
  - rewrite handleSubmit_accuracy by done. reflexivity.
  - apply newAccuracyOf_bounds.
  - apply newAccuracyOf_bounds.
  - intros Hmn. by apply newAccuracyOf_unclamped.
  - intros Hmn. by apply newAccuracyOf_floor.
  - intros. by eapply generateNextWord_accuracy.
  - apply run_accuracyInRange; done.
  - apply run_accuracyInRange; done.
Qed.

Lemma C5_accuracy_updates_witness :
  accuracy (state (handleSubmit 3000 (timed 1000 mounted |> onState (setInput "cot"))))
  == (100 + (1 - 1 / 3) * 100) / 2.
Proof.
  pose proof (C5_accuracy_updates (timed 1000 mounted |> onState (setInput "cot")) 3000
                eq_refl) as (Hroll & _ & Hper & _).
  rewrite Hroll. simpl accuracy. rewrite Hper; [reflexivity | vm_compute; lia].
Defined.

End Accuracy.

(** ** Merging the two sets *)

Section Merging.

Lemma handleSubmit_finishing (endTime : Z) (w : World) (data : ChildData) :
  submitRejected (state w) = false →
  phase (state w) = targeted →
  childData (state w) = Some data →
  TOTAL_WORDS ≤ wordCount (state w) + 1 →
  pending (handleSubmit endTime w)
  = pending w ++ [TimerClearMessage;
                  AwaitFinish data (results (state w) ++ [entryOf (state w) endTime]) (state w)]
  ∧ requests (handleSubmit endTime w) = requests w
  ∧ sessionStorage (handleSubmit endTime w) = sessionStorage w.
Proof.
  intros Hguard Hphase Hdata Hcount. unfold handleSubmit.
  rewrite Hguard, Hphase, Hdata.
  destruct (Nat.leb_spec TOTAL_WORDS (wordCount (state w) + 1)); [|lia].
  simpl. by rewrite <- app_assoc.
Qed.

Lemma resumeFinish_requests data newResults closure reply w :
  childData closure = Some data →
  requests (resumeFinish data newResults closure reply w)
  = requests w
    ++ [SaveTypingResults data
          (mergeResults (default [] (firstSetResults (sessionStorage w) !! sessionId data))
                        newResults)
          (analysis closure) true].
Proof.
  intros Hdata. unfold resumeFinish, saveResults. rewrite Hdata.
  repeat case_match; reflexivity.
Qed.

(** C6: when the fifth attempt of the second set is submitted, the
    handler suspends holding the attempts of this set, and what it
    sends to be saved is the stored first set followed by them: the
    length is the sum of the two lengths, position [i] of the first
    set stays at position [i], and position [j] of the second set
    lands at position [length first + j]. *)
Theorem C6_merged_results (w : World) (endTime : Z) (data : ChildData) (reply : SaveReply) :
  submitRejected (state w) = false →
  phase (state w) = targeted →
  childData (state w) = Some data →
  TOTAL_WORDS ≤ wordCount (state w) + 1 →
  let phase1Attempts := default [] (firstSetResults (sessionStorage w) !! sessionId data) in
  let attemptsThisPhase := results (state w) ++ [entryOf (state w) endTime] in
  let suspended := handleSubmit endTime w in
  ∃ merged,
    pending suspended
    = pending w ++ [TimerClearMessage; AwaitFinish data attemptsThisPhase (state w)]
    ∧ requests (resumeFinish data attemptsThisPhase (state w) reply suspended)
      = requests w ++ [SaveTypingResults data merged (analysis (state w)) true]
    ∧ length merged = length phase1Attempts + length attemptsThisPhase
    ∧ (∀ i, i < length phase1Attempts → merged !! i = phase1Attempts !! i)
    ∧ (∀ j, merged !! (length phase1Attempts + j) = attemptsThisPhase !! j).
Proof.
  intros Hguard Hphase Hdata Hcount phase1Attempts attemptsThisPhase suspended.
  destruct (handleSubmit_finishing endTime w data) as (Hpending & Hrequests & Hstorage);
    try done.
  exists (mergeResults phase1Attempts attemptsThisPhase). repeat split.
  - done.
  - rewrite resumeFinish_requests by done.
    unfold suspended. by rewrite Hrequests, Hstorage.
  - unfold mergeResults. apply length_app.
  - intros i Hi. unfold mergeResults. by apply lookup_app_l.
  - intros j. unfold mergeResults. by rewrite lookup_app_r, Nat.add_sub' by lia.
Qed.

Lemma C6_merged_results_witness :
  ∃ merged,
    requests (resumeFinish kid (results (state beforeLastSubmit)
                                ++ [entryOf (state beforeLastSubmit) 35000])
                (state beforeLastSubmit) (SaveOk None) (handleSubmit 35000 beforeLastSubmit))
    = requests beforeLastSubmit ++ [SaveTypingResults kid merged (Some diagnosis) true]
    ∧ length merged = 5 + 5.
Proof.
  destruct (C6_merged_results beforeLastSubmit 35000 kid (SaveOk None))
    as (merged & _ & Hsent & Hlength & _);
    [vm_compute; reflexivity | vm_compute; reflexivity | vm_compute; reflexivity | |].
  - vm_compute. lia.
  - exists merged. split; [exact Hsent | exact Hlength].
Defined.

End Merging.

(** ** The targeted queue *)

Section TargetedQueue.

(** C10: in the targeted phase, with the index at or past the end of
    the stored queue, generating the next word sends a live request
    that carries the phase [targeted]; nothing is saved, the component
    does not navigate away, the stored queue and index stay as they
    are, and the word shown is the one the server returns (or a
    fallback word when the request fails). *)
Theorem C10_queue_exhausted (closure : State) (now : Z) (reply : WordReply) (random : Q)
    (w : World) (data : ChildData) (words : list string) :
  childData closure = Some data →
  phase closure = targeted →
  targetedWords (sessionStorage w) !! sessionId data = Some words →
  length words ≤ default 0 (targetedWordIndex (sessionStorage w) !! sessionId data) →
  let w' := generateNextWord closure now reply random w in
  requests w' = requests w ++ [GenerateNextWord data (results closure) targeted]
  ∧ navigated w' = navigated w
  ∧ pending w' = pending w
  ∧ sessionStorage w' = sessionStorage w
  ∧ phase (state w') = phase (state w)
  ∧ results (state w') = results (state w)
  ∧ isGeneratingWord (state w') = false
  ∧ currentWord (state w')
    = match reply with WordOk word => word | _ => pickFallback random end.
Proof.
  intros Hdata Hphase Hwords Hindex. simpl.
  assert (queuedWord closure data (sessionStorage w) = None) as Hqueue.
  { unfold queuedWord. rewrite Hwords, Hphase. simpl.
    destruct (Nat.ltb_spec (default 0 (targetedWordIndex (sessionStorage w) !! sessionId data))
                           (length words)); [lia | done]. }
  unfold generateNextWord. rewrite Hdata. simpl. rewrite Hqueue, Hphase.
  unfold adjustDifficulty. repeat case_match; done.
Qed.

Lemma C10_queue_exhausted_witness :
  requests (generateNextWord (state queueExhausted) 30600 (WordOk "big") 0 queueExhausted)
  = requests queueExhausted
    ++ [GenerateNextWord kid (results (state queueExhausted)) targeted].
Proof.
  pose proof (C10_queue_exhausted (state queueExhausted) 30600 (WordOk "big") 0
                queueExhausted kid ["bed"; "dab"]) as H.
  destruct H as (Hsent & _);
    [vm_compute; reflexivity | vm_compute; reflexivity | vm_compute; reflexivity
    | vm_compute; lia |].
  exact Hsent.
Defined.

End TargetedQueue.

(** ** The per-word timer *)

Section Timer.

Lemma mount_idle storage stored reply :
  idle (requests (mount storage stored reply)) (mount storage stored reply).
Proof.
  unfold mount, generateInitialWord, idle.
  repeat case_match; simpl; repeat split; done.
Qed.

Lemma step_idle sent (w : World) (e : Event) : idle sent w → idle sent (step w e).
Proof.
  intros (Htimer & Hresults & Hcount & Hphase & Hpending & Hrequests).
  unfold step. rewrite Hpending.
  destruct (navigated w); [done|].
  destruct e; simpl; try done.
  - case_match; done.
  - case_match; [|done].
    unfold handleSubmit, submitRejected. rewrite Htimer. simpl.
    by rewrite !orb_true_r.
  - case_match; [|done].
    unfold closeClick, closeFinally. rewrite Hresults.
    repeat case_match; done.
Qed.

Lemma run_idle sent (events : list Event) (w : World) :
  idle sent w → idle sent (run w events).
Proof.
  revert w. induction events as [|e events IH]; intros w Hw; simpl; [done|].
  apply IH. by apply step_idle.
Qed.

(** The request of line 138 leaves the timer as it was: it is only
    restarted when a word is taken from the stored queue. *)
Lemma generateNextWord_fetch_keeps_timer closure now reply random w data :
  childData closure = Some data →
  queuedWord closure data (sessionStorage w) = None →
  startTime (state (generateNextWord closure now reply random w)) = startTime (state w).
Proof.
  intros Hdata Hqueue. unfold generateNextWord. rewrite Hdata. simpl. rewrite Hqueue.
  unfold adjustDifficulty. repeat case_match; done.
Qed.

(** C7: what the code does where the claim fails.  The first word is
    fetched and shown without the timer being started, and no later
    event of a session starts it: whatever the child types and
    submits, and whatever the server answers, [startTime] stays
    [null], every submission stops at the guard of line 169, and no
    attempt is recorded, analysed or saved. *)
Theorem C7_timer_never_started (storage : SessionStorage) (data : ChildData)
    (reply : WordReply) (events : list Event) :
  let w := run (mount storage (Some (mkStoredChild data "typing")) reply) events in
  startTime (state w) = None
  ∧ results (state w) = []
  ∧ phase (state w) = initial
  ∧ (∀ endTime, handleSubmit endTime w = w)
  ∧ requests w = [GenerateInitialWord data].
Proof.
  intros w.
  destruct (run_idle _ events _
              (mount_idle storage (Some (mkStoredChild data "typing")) reply))
    as (Htimer & Hresults & _ & Hphase & _ & Hrequests).
  fold w in Htimer, Hresults, Hphase, Hrequests.
  repeat split; try done.
  - intros endTime. unfold handleSubmit, submitRejected. rewrite Htimer. simpl.
    by rewrite !orb_true_r.
  - rewrite Hrequests. unfold mount, generateInitialWord. simpl.
    by destruct reply.
Qed.

End Timer.

(** ** The end of the first set *)

Section FirstSet.

(** What an accepted submission changes, whatever branch it takes. *)
Lemma handleSubmit_accepted (endTime : Z) (w : World) :
  submitRejected (state w) = false →
  let w' := handleSubmit endTime w in
  results (state w') = results (state w) ++ [entryOf (state w) endTime]
  ∧ wordCount (state w') = wordCount (state w) + 1
  ∧ sessionStorage w' = sessionStorage w
  ∧ requests w' = requests w
  ∧ navigated w' = navigated w
  ∧ childData (state w') = childData (state w)
  ∧ error (state w') = error (state w).
Proof.
  intros Hguard. unfold handleSubmit. rewrite Hguard.
  repeat case_match; done.
Qed.

Lemma handleSubmit_rejected (endTime : Z) (w : World) :
  submitRejected (state w) = true → handleSubmit endTime w = w.
Proof. intros Hguard. unfold handleSubmit. by rewrite Hguard. Qed.

(** The cells a submission never touches. *)
Lemma handleSubmit_frame (endTime : Z) (w : World) :
  let w' := handleSubmit endTime w in
  currentWord (state w') = currentWord (state w)
  ∧ startTime (state w') = startTime (state w)
  ∧ loading (state w') = loading (state w)
  ∧ isGeneratingWord (state w') = isGeneratingWord (state w)
  ∧ childData (state w') = childData (state w)
  ∧ navigated w' = navigated w.
Proof. unfold handleSubmit. repeat case_match; done. Qed.

(** The phase after an accepted submission. *)
Lemma handleSubmit_phase (endTime : Z) (w : World) :
  submitRejected (state w) = false →
  phase (state (handleSubmit endTime w))
  = if TOTAL_WORDS <=? wordCount (state w) + 1 then
      match phase (state w), childData (state w) with
      | initial, Some _ => analyzing
      | p, _ => p
      end
    else phase (state w).
Proof.
  intros Hguard. unfold handleSubmit. rewrite Hguard.
  repeat case_match; done.
Qed.

Lemma handleSubmit_pending (endTime : Z) (w : World) :
  submitRejected (state w) = false →
  pending (handleSubmit endTime w)
  = pending w ++ TimerClearMessage ::
      (let newResults := results (state w) ++ [entryOf (state w) endTime] in
       if TOTAL_WORDS <=? wordCount (state w) + 1 then
         match phase (state w), childData (state w) with
         | initial, Some data => [AwaitAnalysis data newResults]
         | targeted, Some data => [AwaitFinish data newResults (state w)]
         | _, _ => []
         end
       else [TimerGenerateNextWord (state w)]).
Proof.
  intros Hguard. unfold handleSubmit. rewrite Hguard.
  repeat case_match; simpl; by rewrite <- ?app_assoc.
Qed.

(** Handlers that leave phase, results and counter alone. *)
Lemma generateNextWord_frame closure now reply random w :
  let w' := generateNextWord closure now reply random w in
  phase (state w') = phase (state w)
  ∧ results (state w') = results (state w)
  ∧ wordCount (state w') = wordCount (state w)
  ∧ navigated w' = navigated w.
Proof.
  unfold generateNextWord, adjustDifficulty. repeat case_match; done.
Qed.

Lemma resumeFinish_frame data newResults closure reply w :
  let w' := resumeFinish data newResults closure reply w in
  phase (state w') = phase (state w)
  ∧ results (state w') = results (state w)
  ∧ wordCount (state w') = wordCount (state w)
  ∧ navigated w' = navigated w.
Proof. unfold resumeFinish, saveResults. repeat case_match; done. Qed.

Lemma closeClick_frame w :
  let w' := closeClick w in
  phase (state w') = phase (state w)
  ∧ results (state w') = results (state w)
  ∧ wordCount (state w') = wordCount (state w).
Proof. unfold closeClick, closeFinally. repeat case_match; done. Qed.


Lemma resumeAnalysis_entered data newResults a words shownAt w :
  let w' := resumeAnalysis data newResults (AnalysisSuccess a) (TargetedSuccess words)
              shownAt w in
  phase (state w') = targeted
  ∧ results (state w') = []
  ∧ wordCount (state w') = 0
  ∧ startTime (state w') = Some shownAt
  ∧ requests w'
    = requests w ++ [AnalyzeTypingResults data newResults; GenerateTargetedWords data a]
  ∧ firstSetResults (sessionStorage w') !! sessionId data = Some (results (state w))
  ∧ targetedWords (sessionStorage w') !! sessionId data = Some words
  ∧ targetedWordIndex (sessionStorage w') !! sessionId data = Some 0.
Proof.
  simpl. rewrite !lookup_insert_eq, <- app_assoc. done.
Qed.





Lemma step_firstSetInvariant (w : World) (e : Event) :
  firstSetInvariant w → firstSetInvariant (step w e).
Proof.
  intros Hw. unfold firstSetInvariant, step.
  repeat case_match; try done; subst.
  - destruct (submitRejected (state w)) eqn:Hguard.
    + by rewrite handleSubmit_rejected.
    + rewrite handleSubmit_phase by done.
      destruct (handleSubmit_accepted endTime w Hguard) as (-> & -> & _).
      assert (is_Some (childData (state w))) as [data Hdata].
      { unfold formEnabled, cardShown in *. destruct (childData (state w)); [by eexists | done]. }
      rewrite Hdata, length_app.
      destruct (Nat.leb_spec TOTAL_WORDS (wordCount (state w) + 1)).
      * by destruct (phase (state w)).
      * intros Hphase. specialize (Hw Hphase). simpl. lia.
  - destruct (closeClick_frame w) as (-> & -> & ->). done.
  - destruct (generateNextWord_frame closure now reply random (taken k w))
      as (-> & -> & -> & _). done.
  - destruct analysisReply as [| |a]; try done.
    destruct targetedReply as [| |words]; try done.
  - destruct (resumeFinish_frame data newResults closure reply (taken k w))
      as (-> & -> & -> & _). done.
Qed.

Lemma run_firstSetInvariant (events : list Event) (w : World) :
  firstSetInvariant w → firstSetInvariant (run w events).
Proof.
  revert w. induction events as [|e events IH]; intros w Hw; simpl; [done|].
  apply IH. by apply step_firstSetInvariant.
Qed.

Lemma mount_firstSetInvariant storage stored reply :
  firstSetInvariant (mount storage stored reply).
Proof.
  unfold firstSetInvariant, mount, generateInitialWord.
  repeat case_match; simpl; intros _; unfold TOTAL_WORDS; split; (done || lia).
Qed.

(** Scenario A of the specification: four of five correct, and one
    transition, holding five attempts. *)
Example scenarioA_outcome :
  length (filter (λ r, Entry.correct r = true) (results (state afterFirstSet))) = 4
  ∧ phase (state afterFirstSet) = analyzing
  ∧ pending afterFirstSet = [AwaitAnalysis kid (results (state afterFirstSet))]
  ∧ length (results (state afterFirstSet)) = 5.
Proof. vm_compute. done. Qed.

(** An accepted submission leaves the form as it found it, unless it is
    the one that brings the counter from 0 to 1 while [loading] is set. *)
Lemma handleSubmit_formEnabled (endTime : Z) (w : World) :
  formEnabled (state w) = true →
  formEnabled (state (handleSubmit endTime w)) = true.
Proof.
  intros Hform.
  destruct (submitRejected (state w)) eqn:Hguard; [by rewrite handleSubmit_rejected|].
  destruct (handleSubmit_frame endTime w) as (_ & _ & Hloading & Hgen & Hchild & _).
  unfold formEnabled, cardShown in *. rewrite Hloading, Hgen, Hchild.
  destruct (childData (state w)); [|done].
  destruct (loading (state w)); [by rewrite andb_false_r in Hform|].
  done.
Qed.

(** C2: what the code does where the claim fails.  In a session whose
    first set starts with the counter in step with the results, a
    submission accepted during the first set brings the count to
    [wordCount + 1] and moves the phase to [analyzing] exactly when that
    count is 5 (a count below 5 schedules the next word instead); the
    handler then suspends holding exactly those 5 attempts, and they are
    what it sends to the analysis.  The copy kept as the first set is
    not taken at that moment: it is written when the targeted words
    arrive (line 310), from the results of that moment, and the form
    stays enabled in between.  It holds the 5 attempts when nothing is
    submitted meanwhile; an attempt accepted while the analysis is
    awaited is stored with them, and the stored first set then has 6
    entries, the last of which was never analysed. *)
Theorem C2_first_set_snapshot (start : World) (events : list Event) (endTime : Z) :
  firstSetInvariant start →
  let w := run start events in
  navigated w = None →
  formEnabled (state w) = true →
  submitRejected (state w) = false →
  phase (state w) = initial →
  let attempts := results (state w) ++ [entryOf (state w) endTime] in
  let w' := step w (Submit endTime) in
  length attempts = wordCount (state w) + 1
  ∧ wordCount (state w') = length attempts
  ∧ (phase (state w') = analyzing ↔ length attempts = TOTAL_WORDS)
  ∧ (length attempts ≠ TOTAL_WORDS →
     phase (state w') = initial
     ∧ pending w' = pending w ++ [TimerClearMessage; TimerGenerateNextWord (state w)])
  ∧ (length attempts = TOTAL_WORDS →
     ∃ data,
       childData (state w) = Some data
       ∧ pending w' = pending w ++ [TimerClearMessage; AwaitAnalysis data attempts]
       ∧ results (state w') = attempts
       ∧ formEnabled (state w') = true
       ∧ (∀ a words shownAt,
            let entered :=
              step w' (AnalysisSettles (length (pending w) + 1) (AnalysisSuccess a)
                         (TargetedSuccess words) shownAt) in
            phase (state entered) = targeted
            ∧ requests entered
              = requests w ++ [AnalyzeTypingResults data attempts; GenerateTargetedWords data a]
            ∧ firstSetResults (sessionStorage entered) !! sessionId data = Some attempts)
       ∧ (∀ typed endTime' a words shownAt,
            falsy (trim typed) = false →
            let late := entryOf (setInput typed (state w')) endTime' in
            let entered :=
              run w' [Change typed; Submit endTime';
                      AnalysisSettles (length (pending w) + 1) (AnalysisSuccess a)
                        (TargetedSuccess words) shownAt] in
            phase (state entered) = targeted
            ∧ requests entered
              = requests w ++ [AnalyzeTypingResults data attempts; GenerateTargetedWords data a]
            ∧ firstSetResults (sessionStorage entered) !! sessionId data
              = Some (attempts ++ [late])
            ∧ length (attempts ++ [late]) = TOTAL_WORDS + 1)).
Proof.
  intros Hstart w Hmounted Hform Hguard Hphase attempts w'.
  destruct (run_firstSetInvariant events start Hstart Hphase) as [Hlength Hbelow].
  fold w in Hlength, Hbelow.
  assert (w' = handleSubmit endTime w) as ->.
  { unfold w', step. by rewrite Hmounted, Hform. }
  assert (is_Some (childData (state w))) as [data Hdata].
  { unfold formEnabled, cardShown in Hform.
    destruct (childData (state w)); [by eexists | done]. }
  destruct (handleSubmit_accepted endTime w Hguard)
    as (Hresults & Hcount & Hstorage & Hsent & Hnav & _).
  destruct (handleSubmit_frame endTime w) as (Hword & Htimer & _).
  pose proof (handleSubmit_formEnabled endTime w Hform) as Hform'.
  pose proof (handleSubmit_phase endTime w Hguard) as Hphase'.
  pose proof (handleSubmit_pending endTime w Hguard) as Hpending.
  rewrite Hphase, Hdata in Hphase', Hpending.
  cbv zeta in Hpending. fold attempts in Hpending.
  assert (length attempts = wordCount (state w) + 1) as Hattempts.
  { unfold attempts. rewrite length_app. simpl. lia. }
  split; [done|]. split; [lia|].
  destruct (Nat.leb_spec TOTAL_WORDS (wordCount (state w) + 1)) as [Hreached | Hshort];
    [|split; [split; [by rewrite Hphase' | lia]|]; split; [done | lia]].
  split; [split; [lia | done]|]. split; [lia|].
  intros _. exists data.
  set (ws := handleSubmit endTime w) in *.
  assert (∀ later : list Pending,
            (pending w ++ TimerClearMessage :: AwaitAnalysis data attempts :: later)
              !! (length (pending w) + 1)
            = Some (AwaitAnalysis data attempts)) as Hlookup.
  { intros later. rewrite lookup_app_r by lia.
    by replace (length (pending w) + 1 - length (pending w)) with 1 by lia. }
  split; [done|]. split; [done|]. split; [done|]. split; [done|]. split.
  - (* the analysis settles at once *)
    intros a words shownAt entered.
    assert (entered
            = resumeAnalysis data attempts (AnalysisSuccess a) (TargetedSuccess words) shownAt
                (taken (length (pending w) + 1) ws)) as ->.
    { unfold entered, step. rewrite Hnav, Hmounted, Hpending.
      by rewrite (Hlookup []). }
    destruct (resumeAnalysis_entered data attempts a words shownAt
                (taken (length (pending w) + 1) ws))
      as (Hp & _ & _ & _ & Hr & Hs & _).
    split; [done|]. split; [by rewrite Hr; simpl; rewrite Hsent|].
    by rewrite Hs; simpl; rewrite Hresults.
  - (* an attempt comes in before it does *)
    intros typed endTime' a words shownAt Htyped late entered.
    set (wa := onState (setInput typed) ws).
    assert (step ws (Change typed) = wa) as Hchange.
    { unfold step. by rewrite Hnav, Hmounted, Hform'. }
    assert (formEnabled (state wa) = true) as Hforma.
    { unfold wa, formEnabled, cardShown in *. simpl. done. }
    assert (submitRejected (state wa) = false) as Hguarda.
    { unfold submitRejected in *. unfold wa. simpl. rewrite Hword, Htimer, Htyped.
      apply orb_false_iff in Hguard as [[Hw _]%orb_false_iff Ht]. by rewrite Hw, Ht. }
    set (wb := handleSubmit endTime' wa).
    assert (step wa (Submit endTime') = wb) as Hsubmit.
    { unfold step. unfold wa at 1. simpl navigated. by rewrite Hnav, Hmounted, Hforma. }
    destruct (handleSubmit_accepted endTime' wa Hguarda)
      as (Hresultsb & _ & _ & Hsentb & Hnavb & _).
    pose proof (handleSubmit_pending endTime' wa Hguarda) as Hpendingb.
    fold wb in Hresultsb, Hsentb, Hnavb, Hpendingb.
    assert (phase (state wa) = analyzing) as Hphasea by (unfold wa; simpl; done).
    assert (wordCount (state wa) = wordCount (state w) + 1) as Hcounta
      by (unfold wa; simpl; done).
    rewrite Hphasea, Hcounta in Hpendingb.
    destruct (Nat.leb_spec TOTAL_WORDS (wordCount (state w) + 1 + 1)); [|lia].
    assert (pending wb
            = pending w ++ TimerClearMessage :: AwaitAnalysis data attempts
                :: [TimerClearMessage]) as Hpendingb'.
    { rewrite Hpendingb. unfold wa. simpl pending. rewrite Hpending.
      by rewrite <- !app_assoc. }
    assert (entered
            = resumeAnalysis data attempts (AnalysisSuccess a) (TargetedSuccess words) shownAt
                (taken (length (pending w) + 1) wb)) as ->.
    { unfold entered.
      change (run ws [Change typed; Submit endTime';
                      AnalysisSettles (length (pending w) + 1) (AnalysisSuccess a)
                        (TargetedSuccess words) shownAt])
        with (step (step (step ws (Change typed)) (Submit endTime'))
                (AnalysisSettles (length (pending w) + 1) (AnalysisSuccess a)
                   (TargetedSuccess words) shownAt)).
      rewrite Hchange, Hsubmit. unfold step.
      rewrite Hnavb. unfold wa at 1. simpl navigated. rewrite Hnav, Hmounted.
      by rewrite Hpendingb', Hlookup. }
    destruct (resumeAnalysis_entered data attempts a words shownAt
                (taken (length (pending w) + 1) wb))
      as (Hp & _ & _ & _ & Hr & Hs & _).
    assert (results (state wb) = attempts ++ [late]) as Hall.
    { rewrite Hresultsb. unfold wa. simpl. by rewrite Hresults. }
    split; [done|]. split; [by rewrite Hr; simpl; rewrite Hsentb; unfold wa; simpl; rewrite Hsent|].
    split; [by rewrite Hs; simpl; rewrite Hall|].
    rewrite length_app, Hattempts. unfold TOTAL_WORDS in *. simpl. lia.
Qed.

(** The copy under [firstSetResults_<id>] is written when the targeted
    words arrive, from the results of that moment: an attempt accepted
    while the analysis is in flight is part of it. *)
Example attempt_during_analysis_is_stored :
  let w := run afterFirstSet
             [Change "book"; Submit 16000;
              AnalysisSettles 0 (AnalysisSuccess diagnosis) (TargetedSuccess ["bed"; "dab"])
                20000] in
  phase (state w) = targeted
  ∧ length <$> firstSetResults (sessionStorage w) !! sessionId kid = Some 6
  ∧ requests w
    = requests afterFirstSet
      ++ [AnalyzeTypingResults kid (results (state afterFirstSet));
          GenerateTargetedWords kid diagnosis].
Proof. vm_compute. done. Qed.

Lemma C2_first_set_snapshot_witness :
  phase (state (step beforeFifthSubmit (Submit 15000))) = analyzing
  ↔ length (results (state beforeFifthSubmit) ++ [entryOf (state beforeFifthSubmit) 15000])
    = TOTAL_WORDS.
Proof.
  pose proof (C2_first_set_snapshot (timed 1000 mounted) fifthTyped 15000) as H.
  destruct H as (_ & _ & Hiff & _);
    [intros _; vm_compute; lia | vm_compute; reflexivity | vm_compute; reflexivity
    | vm_compute; reflexivity | vm_compute; reflexivity |].
  exact Hiff.
Defined.

End FirstSet.

(** ** The fallback words *)

Section Fallback.

#[local] Arguments Nat.leb : simpl never.

Lemma pickFallback_member (random : Q) :
  (0 <= random)%Q → (random < 1)%Q → pickFallback random ∈ fallbackWords.
Proof.
  intros Hlow Hhigh. unfold pickFallback.
  set (x := (random * inject_Z (Z.of_nat (length fallbackWords)))%Q).
  assert (0 <= Qfloor x < 5)%Z as Hfloor.
  { change (inject_Z (Z.of_nat (length fallbackWords))) with 5%Q in x.
    assert (0 <= x)%Q as Hx0 by (unfold x; lra).
    assert (x < 5)%Q as Hx5 by (unfold x; lra).
    split.
    - change 0%Z with (Qfloor 0). by apply Qfloor_resp_le.
    - rewrite Zlt_Qlt. eapply Qle_lt_trans; [apply Qfloor_le | done]. }
  assert (Z.to_nat (Qfloor x) < 5) as Hindex by lia.
  destruct (Z.to_nat (Qfloor x)) as [|[|[|[|[|n]]]]]; simpl; [| | | | | lia];
    apply list_elem_of_In; simpl; auto 6.
Qed.

Lemma fallbackWords_nonempty (word : string) : word ∈ fallbackWords → falsy word = false.
Proof.
  intros Hword. apply list_elem_of_In in Hword. simpl in Hword.
  destruct Hword as [<-|[<-|[<-|[<-|[<-|[]]]]]]; reflexivity.
Qed.

Lemma queuedWord_outside_targeted closure data storage :
  phase closure ≠ targeted → queuedWord closure data storage = None.
Proof.
  intros Hphase. unfold queuedWord. case_match; [|done].
  by rewrite bool_decide_eq_false_2.
Qed.

(** A failed request, handled: every cell but the word, the error,
    the accuracy and the difficulty is as before. *)
Lemma generateNextWord_failed closure now reply random w data :
  childData closure = Some data →
  queuedWord closure data (sessionStorage w) = None →
  wordFailed reply →
  let w' := generateNextWord closure now reply random w in
  currentWord (state w') = pickFallback random
  ∧ error (state w') = Some (caughtMessage reply)
  ∧ isGeneratingWord (state w') = false
  ∧ loading (state w') = loading (state w)
  ∧ startTime (state w') = startTime (state w)
  ∧ childData (state w') = childData (state w)
  ∧ phase (state w') = phase (state w)
  ∧ results (state w') = results (state w)
  ∧ wordCount (state w') = wordCount (state w)
  ∧ pending w' = pending w
  ∧ navigated w' = navigated w
  ∧ sessionStorage w' = sessionStorage w
  ∧ requests w' = requests w ++ [GenerateNextWord data (results closure) (phase closure)].
Proof.
  intros Hdata Hqueue Hreply. unfold generateNextWord. rewrite Hdata. simpl. rewrite Hqueue.
  unfold adjustDifficulty. destruct reply; [done|..]; repeat case_match; done.
Qed.

(** One round with a failing word request, from a first set under way. *)
Lemma failing_round (data : ChildData) (w : World) (r : Round) :
  ready data w →
  wordCount (state w) < TOTAL_WORDS →
  failingRound r →
  let w' := run w (roundEvents r) in
  wordCount (state w') = wordCount (state w) + 1
  ∧ (wordCount (state w) + 1 < TOTAL_WORDS →
     ready data w' ∧ currentWord (state w') ∈ fallbackWords)
  ∧ (wordCount (state w) + 1 = TOTAL_WORDS →
     phase (state w') = analyzing
     ∧ navigated w' = None
     ∧ pending w' = [AwaitAnalysis data (results (state w'))]
     ∧ length (results (state w')) = TOTAL_WORDS).
Proof.
  intros (Hnav & Hpend & Hphase & Hdata & Hword & Htimer & Hload & Hgen & Hlen) Hlt
         (Htyped & Hreply & Hr0 & Hr1).
  unfold run, roundEvents. simpl fold_left.
  (* the child types *)
  assert (step w (Change (typed r)) = onState (setInput (typed r)) w) as ->.
  { unfold step, formEnabled, cardShown. by rewrite Hnav, Hdata, Hload, Hgen. }
  set (wa := onState (setInput (typed r)) w).
  (* and submits *)
  assert (step wa (Submit (submittedAt r)) = handleSubmit (submittedAt r) wa) as ->.
  { unfold step, formEnabled, cardShown, wa. simpl. by rewrite Hnav, Hdata, Hload, Hgen. }
  assert (submitRejected (state wa) = false) as Hguard.
  { unfold submitRejected, wa. simpl. by rewrite Hword, Htyped, Htimer. }
  set (wb := handleSubmit (submittedAt r) wa).
  destruct (handleSubmit_accepted (submittedAt r) wa Hguard)
    as (Hresults & Hcount & Hstorage & _).
  destruct (handleSubmit_frame (submittedAt r) wa)
    as (Hword' & Htimer' & Hload' & Hgen' & Hdata' & Hnav').
  pose proof (handleSubmit_phase (submittedAt r) wa Hguard) as Hphase'.
  pose proof (handleSubmit_pending (submittedAt r) wa Hguard) as Hpending'.
  fold wb in Hresults, Hcount, Hstorage, Hword', Htimer', Hload', Hgen', Hdata', Hnav',
             Hphase', Hpending'.
  simpl in Hresults, Hcount, Hstorage, Hword', Htimer', Hload', Hgen', Hdata', Hnav',
           Hphase', Hpending'.
  rewrite Hphase, Hdata, Hpend in *.
  (* the feedback is cleared *)
  set (wc := wb |> taken 0 |> onState (setMessage None)).
  assert (step wb (ClearMessageFires 0) = wc) as ->.
  { unfold step. by rewrite Hnav', Hnav, Hpending'. }
  destruct (Nat.leb_spec TOTAL_WORDS (wordCount (state w) + 1)) as [Hreached | Hshort].
  - (* fifth attempt: the analysis is pending, no word is generated *)
    assert (step wc (NextWordFires 0 (submittedAt r + 1600) (answer r) (draw r)) = wc) as ->.
    { unfold step, wc. simpl. by rewrite Hnav', Hnav, Hpending'. }
    unfold wc. simpl. rewrite Hcount, Hphase', Hnav', Hpending', Hresults, length_app.
    simpl. repeat split; try done; lia.
  - (* otherwise the next word is requested, and the request fails *)
    set (wd := generateNextWord (state wa) (submittedAt r + 1600) (answer r) (draw r)
                 (taken 0 wc)).
    assert (step wc (NextWordFires 0 (submittedAt r + 1600) (answer r) (draw r)) = wd) as ->.
    { unfold step, wc. simpl. by rewrite Hnav', Hnav, Hpending'. }
    destruct (generateNextWord_failed (state wa) (submittedAt r + 1600) (answer r) (draw r)
                (taken 0 wc) data)
      as (Hw1 & _ & Hg1 & Hl1 & Ht1 & Hd1 & Hp1 & Hr1' & Hc1 & Hpe1 & Hn1 & _); try done.
    { apply queuedWord_outside_targeted. unfold wa. simpl. by rewrite Hphase. }
    fold wd in Hw1, Hg1, Hl1, Ht1, Hd1, Hp1, Hr1', Hc1, Hpe1, Hn1.
    pose proof (pickFallback_member (draw r) Hr0 Hr1) as Hmember.
    unfold wc in *. simpl in *.
    split; [lia|]. split; [|lia]. intros _.
    unfold ready. rewrite Hw1, Hg1, Hl1, Ht1, Hd1, Hp1, Hr1', Hc1, Hpe1, Hn1.
    rewrite Hpending', Hnav', Hphase', Hdata', Hload', Htimer', Hresults, Hcount, length_app.
    simpl. repeat split; try done; [by apply fallbackWords_nonempty | lia].
Qed.

Lemma play_cons (w : World) (r : Round) (rounds : list Round) :
  play w (r :: rounds) = play (run w (roundEvents r)) rounds.
Proof.
  unfold play, run.
  change (concat (map roundEvents (r :: rounds)))
    with (roundEvents r ++ concat (map roundEvents rounds)).
  by rewrite fold_left_app.
Qed.

(** A first set under way goes on through any number of failing word
    requests: after each round but the last it is ready for the next
    attempt with a fallback word on display, and the attempt that
    brings the count to 5 moves the phase to [analyzing] with the five
    attempts held for the analysis. *)
Lemma fallback_keeps_session_going (data : ChildData) (w : World)
    (rounds : list Round) :
  ready data w →
  0 < length rounds →
  wordCount (state w) + length rounds = TOTAL_WORDS →
  Forall failingRound rounds →
  (∀ k, 0 < k < length rounds →
        let shown := play w (take k rounds) in
        currentWord (state shown) ∈ fallbackWords
        ∧ ready data shown
        ∧ wordCount (state shown) = wordCount (state w) + k)
  ∧ (let w' := play w rounds in
     phase (state w') = analyzing
     ∧ navigated w' = None
     ∧ wordCount (state w') = TOTAL_WORDS
     ∧ pending w' = [AwaitAnalysis data (results (state w'))]
     ∧ length (results (state w')) = TOTAL_WORDS).
Proof.
  intros Hready Hsome Hcount Hrounds. revert w Hready Hcount.
  induction Hrounds as [|r rounds Hr Hrounds IH]; intros w Hready Hcount; simpl in *; [lia|].
  assert (wordCount (state w) < TOTAL_WORDS) as Hbelow by lia.
  destruct (failing_round data w r Hready Hbelow Hr) as (Hnext & Hgoes & Hends).
  destruct rounds as [|r' rounds].
  - split; [intros k Hk; simpl in Hk; lia|].
    rewrite play_cons. unfold play. simpl concat.
    change (run (run w (roundEvents r)) []) with (run w (roundEvents r)).
    destruct Hends as (? & ? & ? & ?); [simpl in Hcount; lia|].
    repeat split; try done. simpl in Hcount. lia.
  - destruct Hgoes as [Hready' Hshown]; [simpl in Hcount; lia|].
    destruct (IH ltac:(simpl; lia) (run w (roundEvents r)) Hready'
                ltac:(simpl in *; lia)) as [IHshown IHends].
    split.
    + intros [|k] Hk; [lia|]. simpl take. rewrite play_cons.
      destruct k as [|k].
      * unfold play. simpl take. simpl concat.
        change (run (run w (roundEvents r)) []) with (run w (roundEvents r)).
        split; [done|]. split; done.
      * destruct (IHshown (S k)) as (? & ? & ?); [simpl in *; lia|].
        split; [done|]. split; [done|]. lia.
    + rewrite play_cons. apply IHends.
Qed.

(** Scenario C of the specification, with every word request failing. *)
Example scenarioC_outcome :
  phase (state (play (timed 1000 mounted) offlineRounds)) = analyzing
  ∧ length (results (state (play (timed 1000 mounted) offlineRounds))) = TOTAL_WORDS.
Proof.
  destruct (fallback_keeps_session_going kid (timed 1000 mounted) offlineRounds)
    as (_ & Hphase & _ & _ & _ & Hlength).
  - vm_compute. repeat split; reflexivity.
  - vm_compute. lia.
  - vm_compute. reflexivity.
  - repeat constructor; vm_compute; congruence.
  - split; [exact Hphase | exact Hlength].
Qed.

(** *** The first word *)

Lemma caughtMessage_nonempty (reply : WordReply) :
  wordFailed reply → falsy (caughtMessage reply) = false.
Proof.
  destruct reply as [word|e|message]; [done|..]; intros _; simpl.
  - unfold orElse. destruct e as [text|]; [|done].
    destruct (falsy text) eqn:Htext; [done|]. by rewrite Htext.
  - unfold orElse. destruct (falsy message) eqn:Hmessage; [done | done].
Qed.

Lemma step_wordless (text : string) (w : World) (e : Event) :
  wordless text w → wordless text (step w e).
Proof.
  intros (Hword & Herror & Htimer & Hresults & Hpending).
  unfold step. rewrite Hpending.
  destruct (navigated w); [done|].
  destruct e; simpl; try done.
  - case_match; done.
  - case_match; [|done].
    unfold handleSubmit, submitRejected. by rewrite Hword.
  - case_match; [|done].
    unfold closeClick, closeFinally. rewrite Hresults.
    repeat case_match; done.
Qed.

Lemma run_wordless (text : string) (events : list Event) (w : World) :
  wordless text w → wordless text (run w events).
Proof.
  revert w. induction events as [|e events IH]; intros w Hw; simpl; [done|].
  apply IH. by apply step_wordless.
Qed.

(** C8: what the code does where the claim fails.  A failing request
    for the next word puts a member of the five-word fallback pool on
    display (lines 161-163).  The same failure of the request for the
    first word does not (lines 85-88): the error text is put up and
    that is all.  No word is on display and none is on its way, so
    after any events the word box is still empty, every submission
    stops at the guard, no attempt is recorded, the count stays 0 and
    the phase [initial]: the session is blocked and never reaches the
    phase transition. *)
Theorem C8_first_word_has_no_fallback (storage : SessionStorage) (data : ChildData)
    (reply : WordReply) (events : list Event)
    (closure : State) (now : Z) (random : Q) (during : World) :
  wordFailed reply →
  childData closure = Some data →
  phase closure ≠ targeted →
  (0 <= random)%Q → (random < 1)%Q →
  currentWord (state (generateNextWord closure now reply random during)) ∈ fallbackWords
  ∧ (let w := run (mount storage (Some (mkStoredChild data "typing")) reply) events in
     requests w = [GenerateInitialWord data]
     ∧ error (state w) = Some (caughtMessage reply)
     ∧ currentWord (state w) = ""
     ∧ (currentWord (state w) ∉ fallbackWords)
     ∧ pending w = []
     ∧ (∀ endTime, handleSubmit endTime w = w)
     ∧ results (state w) = []
     ∧ wordCount (state w) = 0
     ∧ phase (state w) = initial).
Proof.
  intros Hreply Hdata Hphase Hlow Hhigh. split.
  - destruct (generateNextWord_failed closure now reply random during data)
      as (-> & _); try done; [by apply queuedWord_outside_targeted|].
    by apply pickFallback_member.
  - intros w.
    assert (wordless (caughtMessage reply)
              (mount storage (Some (mkStoredChild data "typing")) reply)) as Hmount.
    { unfold mount, generateInitialWord, wordless. simpl. by destruct reply. }
    destruct (run_wordless _ events _ Hmount) as (Hword & Herror & _ & Hresults & Hpending).
    destruct (run_idle _ events _
                (mount_idle storage (Some (mkStoredChild data "typing")) reply))
      as (_ & _ & Hcount & Hinitial & _ & Hrequests).
    fold w in Hword, Herror, Hresults, Hpending, Hcount, Hinitial, Hrequests.
    split; [|split; [done|]; split; [done|]; split; [|split; [done|]; split]].
    + rewrite Hrequests. unfold mount, generateInitialWord. simpl. by destruct reply.
    + rewrite Hword. intros Hmember%fallbackWords_nonempty. done.
    + intros endTime. unfold handleSubmit, submitRejected. by rewrite Hword.
    + done.
Qed.

Lemma C8_first_word_has_no_fallback_witness :
  currentWord
    (state (generateNextWord (state (timed 1000 mounted)) 4600 (WordThrows "Failed to fetch")
              (1 # 2) (timed 1000 mounted)))
  ∈ fallbackWords
  ∧ currentWord
      (state (run (mount emptyStorage (Some (mkStoredChild kid "typing"))
                     (WordThrows "Failed to fetch"))
                [Change "cat"; Submit 3000]))
    = "".
Proof.
  destruct (C8_first_word_has_no_fallback emptyStorage kid (WordThrows "Failed to fetch")
              [Change "cat"; Submit 3000] (state (timed 1000 mounted)) 4600 (1 # 2)
              (timed 1000 mounted))
    as (Hnext & _ & _ & Hfirst & _);
    [exact I | vm_compute; reflexivity | vm_compute; discriminate
    | vm_compute; discriminate | vm_compute; reflexivity |].
  split; [exact Hnext | exact Hfirst].
Defined.

End Fallback.

(** ** Leaving early *)

Section Closing.

(** A second click on the close button changes nothing. *)
Lemma close_twice (w : World) : step (step w Close) Close = step w Close.
Proof.
  destruct (navigated w) eqn:Hnav.
  { assert (step w Close = w) as -> by (unfold step; by rewrite Hnav).
    unfold step. by rewrite Hnav. }
  destruct (cardShown (state w)) eqn:Hcard.
  2: { assert (step w Close = w) as -> by (unfold step; by rewrite Hnav, Hcard).
       unfold step. by rewrite Hnav, Hcard. }
  assert (step w Close = closeClick w) as Hclick by (unfold step; by rewrite Hnav, Hcard).
  rewrite Hclick. unfold closeClick.
  destruct (savingOnClose (state w)) eqn:Hsaving.
  { rewrite Hclick. unfold closeClick. by rewrite Hsaving. }
  destruct (results (state w)) as [|r rs] eqn:Hresults; [by unfold step|].
  destruct (childData (state w)) as [data|] eqn:Hdata; [|by unfold step].
  unfold step, closeClick, cardShown in *. simpl.
  rewrite Hnav, Hdata in *. by rewrite Hcard.
Qed.

Lemma step_closedAtMostOnce (w : World) (e : Event) :
  closedAtMostOnce w → closedAtMostOnce (step w e).
Proof.
  intros [Hcount Hnone]. unfold step.
  destruct (navigated w) eqn:Hnav; [split; [done | congruence]|].
  specialize (Hnone eq_refl).
  unfold closedAtMostOnce, closeSaves in *.
  destruct e; repeat case_match; try done; subst.
  - unfold handleSubmit. repeat case_match; done.
  - unfold closeClick, closeFinally.
    destruct (savingOnClose (state w)) eqn:Hsaving; [split; [done | congruence]|].
    specialize (Hnone eq_refl).
    repeat case_match; simpl; rewrite ?filter_app, ?Hnone; simpl; split; (done || lia).
  - unfold generateNextWord, adjustDifficulty.
    repeat case_match; simpl; rewrite ?filter_app; simpl; rewrite ?app_nil_r; done.
  - unfold resumeAnalysis, enterTargeted.
    repeat case_match; simpl; rewrite ?filter_app; simpl; rewrite ?app_nil_r; done.
  - unfold resumeFinish, saveResults.
    repeat case_match; simpl; rewrite ?filter_app; simpl; rewrite ?app_nil_r; done.
Qed.

(** In a session the close button sends at most one save request. *)
Lemma run_closedAtMostOnce (events : list Event) (w : World) :
  closedAtMostOnce w → length (closeSaves (run w events)) ≤ 1.
Proof.
  revert w. induction events as [|e events IH]; intros w Hw; simpl; [apply Hw|].
  apply IH. by apply step_closedAtMostOnce.
Qed.

(** C9: what the code does where the claim fails.  One attempt into
    the second set, the five attempts of the first set are in
    [sessionStorage] and [results] holds the one new attempt; the
    close button sends [results] alone, so the first set is not part
    of what is saved.  At the start of the second set [results] is
    empty and the close button sends nothing at all.  (A second click
    while the request is in flight does change nothing.) *)
Theorem C9_close_saves_current_set_only :
  let clicked := step midSecondSet Close in
  firstSetResults (sessionStorage midSecondSet) !! sessionId kid
  = Some (results (state afterFirstSet))
  ∧ length (results (state afterFirstSet)) = 5
  ∧ length (results (state midSecondSet)) = 1
  ∧ requests clicked = requests midSecondSet ++ [SaveOnClose kid (results (state midSecondSet))]
  ∧ step clicked Close = clicked
  ∧ navigated (step clicked (CloseSaveSettles 2)) = Some "/landing"
  ∧ requests (step inSecondSet Close) = requests inSecondSet
  ∧ navigated (step inSecondSet Close) = Some "/landing".
Proof. vm_compute. repeat split; reflexivity. Qed.

End Closing.

(** * Further properties of the typing game *)

(** ** Feedback on an attempt *)

Section Feedback.

(** Lower-casing an ASCII word and then taking a character is taking
    the character and lower-casing it. *)
Lemma charAt_toLowerCase (s : string) (i : nat) :
  isAscii s = true → charAt (toLowerCase s) i = charToLowerCase <$> charAt s i.
Proof.
  revert i. induction s as [|c r IH]; intros i Hascii; simpl in *; [done|].
  apply andb_true_iff in Hascii as [_ Hrest].
  destruct i as [|i]; [done | by apply IH].
Qed.

Lemma charAt_out_of_range (s : string) (i : nat) :
  String.length s ≤ i → charAt s i = None.
Proof.
  revert i. induction s as [|c r IH]; intros i Hi; simpl in *; [done|].
  destruct i as [|i]; [lia|]. apply IH. lia.
Qed.

Lemma hamming_same (a : string) : hamming a a = 0.
Proof.
  induction a as [|x a IH]; simpl; [done|].
  by rewrite bool_decide_eq_true_2, IH.
Qed.

Lemma hamming_zero (a b : string) : hamming a b = 0 → a = b.
Proof.
  revert b. induction a as [|x a IH]; intros [|y b]; simpl; try done.
  case_bool_decide as Hxy; [|lia]. intros H. f_equal; [done|]. by apply IH.
Qed.

Lemma no_mistakes_correct (s : State) (endTime : Z) :
  Entry.mistakes (entryOf s endTime) = 0 → Entry.correct (entryOf s endTime) = true.
Proof.
  unfold entryOf. simpl. rewrite countMistakes_hamming. intros Hnone.
  apply bool_decide_eq_true. by apply hamming_zero.
Qed.

(** X1: an attempt is marked correct exactly when the character loop
    finds no mistake: the comparison with [===] and the count of lines
    178-183 never disagree. *)
Theorem X1_correct_iff_no_mistakes (s : State) (endTime : Z) :
  Entry.correct (entryOf s endTime) = true ↔ Entry.mistakes (entryOf s endTime) = 0.
Proof.
  unfold entryOf. simpl. rewrite bool_decide_eq_true, countMistakes_hamming. split.
  - intros ->. apply hamming_same.
  - apply hamming_zero.
Qed.

Lemma count_false_map {A : Type} (f : A → bool) (P : A → Prop) `{!∀ x, Decision (P x)}
    (l : list A) :
  (∀ x, x ∈ l → (f x = false ↔ P x)) →
  length (filter (λ m, m = false) (map f l)) = length (filter P l).
Proof.
  induction l as [|x l IH]; intros Hl; [done|].
  simpl map. rewrite !filter_cons.
  pose proof (Hl x ltac:(left)) as Hx.
  specialize (IH ltac:(intros y Hy; apply Hl; by right)).
  repeat case_decide; simpl; rewrite IH; tauto.
Qed.

(** A mark of the comparison stands for a difference exactly where the
    mistake loop sees one. *)
Lemma comparison_mark (inputWord currentWord : string) (i : nat) :
  isAscii currentWord = true →
  i < Nat.max (String.length inputWord) (String.length currentWord) →
  ((if (i <? String.length inputWord) && (i <? String.length currentWord)
    then bool_decide (charAt inputWord i = charToLowerCase <$> charAt currentWord i)
    else false) = false
   ↔ charAt inputWord i ≠ charAt (toLowerCase currentWord) i).
Proof.
  intros Hascii Hi. rewrite charAt_toLowerCase by done.
  destruct (Nat.ltb_spec i (String.length inputWord)) as [Hin | Hout];
    destruct (Nat.ltb_spec i (String.length currentWord)) as [Hin' | Hout']; simpl.
  - by rewrite bool_decide_eq_false.
  - rewrite (charAt_out_of_range currentWord i) by done.
    destruct (charAt_in_range inputWord i Hin) as [c ->]. done.
  - rewrite (charAt_out_of_range inputWord i) by done.
    destruct (charAt_in_range currentWord i Hin') as [c ->]. done.
  - lia.
Qed.

Lemma comparisonOf_crosses (inputWord currentWord : string) :
  isAscii currentWord = true →
  length (filter (λ m, m = false) (comparisonOf inputWord currentWord))
  = countMistakes inputWord (toLowerCase currentWord).
Proof.
  intros Hascii.
  rewrite countMistakes_positions. unfold comparisonOf, mismatchPositions.
  rewrite toLowerCase_length. apply count_false_map.
  intros i Hi. apply comparison_mark; [done|]. apply elem_of_seq in Hi. lia.
Qed.

(** X2: for an attempt at an ASCII word that is not correct, whatever
    was typed, the feedback carries one mark per position up to the
    longer of the two words, and the marks for a difference are as many
    as the mistakes recorded in the entry, at least one.  (The marks
    compare with the target's characters lower-cased one by one, the
    count with the target lower-cased as a whole: outside ASCII the two
    can disagree.) *)
Theorem X2_feedback_marks (s : State) (endTime : Z) :
  isAscii (currentWord s) = true →
  Entry.correct (entryOf s endTime) = false →
  ∃ marks tip,
    feedbackOf s (entryOf s endTime)
    = MsgFeedback (currentWord s) (userWordOf (input s)) marks tip
    ∧ length marks
      = Nat.max (String.length (userWordOf (input s))) (String.length (currentWord s))
    ∧ length (filter (λ m, m = false) marks) = Entry.mistakes (entryOf s endTime)
    ∧ 0 < Entry.mistakes (entryOf s endTime).
Proof.
  intros Hascii Hwrong.
  exists (comparisonOf (userWordOf (input s)) (currentWord s)),
         (tipOf (userWordOf (input s)) (currentWord s)).
  split; [|split; [|split]].
  - unfold feedbackOf. by rewrite Hwrong.
  - unfold comparisonOf. by rewrite length_map, length_seq.
  - by apply comparisonOf_crosses.
  - destruct (Entry.mistakes (entryOf s endTime)) eqn:Hnone; [|lia].
    apply no_mistakes_correct in Hnone. congruence.
Qed.

Lemma X2_feedback_marks_witness :
  ∃ marks tip,
    feedbackOf (typing "sun" "son" 1000) (entryOf (typing "sun" "son" 1000) 2500)
    = MsgFeedback "sun" "son" marks tip
    ∧ length (filter (λ m, m = false) marks) = 1.
Proof.
  destruct (X2_feedback_marks (typing "sun" "son" 1000) 2500 eq_refl eq_refl)
    as (marks & tip & Hmessage & _ & Hcrosses & _).
  exists marks, tip. split; [exact Hmessage | exact Hcrosses].
Defined.

Lemma focus_positions_filter (P : nat → Prop) `{!∀ i, Decision (P i)}
    (typed expected : nat → option ascii) (l : list nat) :
  map (λ d : nat * option ascii * option ascii, d.1.1)
      (omap (λ i, if bool_decide (P i) then Some (i, typed i, expected i) else None) l)
  = filter P l.
Proof.
  induction l as [|i l IH]; [done|].
  simpl omap. rewrite filter_cons, <- IH.
  case_bool_decide; case_decide; done.
Qed.

Lemma tipOf_focus (inputWord currentWord : string) :
  isAscii currentWord = true →
  String.length inputWord = String.length currentWord →
  ∃ diffPositions,
    tipOf inputWord currentWord = TipFocusOn diffPositions
    ∧ map (λ d : nat * option ascii * option ascii, d.1.1) diffPositions
      = mismatchPositions inputWord (toLowerCase currentWord).
Proof.
  intros Hascii Hlength. unfold tipOf. rewrite bool_decide_eq_false_2 by (intros ?; done).
  eexists. split; [done|].
  rewrite (focus_positions_filter
             (λ i, charAt inputWord i ≠ charToLowerCase <$> charAt currentWord i)).
  unfold mismatchPositions. rewrite toLowerCase_length, <- Hlength, Nat.max_id.
  apply list_filter_iff. intros i. by rewrite charAt_toLowerCase.
Qed.

(** X3: the tip of the feedback for an attempt at an ASCII word that is
    not correct, whatever was typed.  A typed word shorter than the
    target gets the "missed some letters" tip, a longer one the "added
    extra letters" tip; for a word of the same length the tip lists
    exactly the positions the mistake loop counted, and that list is
    never empty, so the "Focus on" text is always there.  (Outside
    ASCII the list can be empty for an attempt that is not correct: it
    compares with the target's characters lower-cased one by one.) *)
Theorem X3_feedback_tip (s : State) (endTime : Z) :
  isAscii (currentWord s) = true →
  Entry.correct (entryOf s endTime) = false →
  let inputWord := userWordOf (input s) in
  let tip := tipOf inputWord (currentWord s) in
  (String.length inputWord < String.length (currentWord s) → tip = TipMissedLetters)
  ∧ (String.length (currentWord s) < String.length inputWord → tip = TipExtraLetters)
  ∧ (String.length inputWord = String.length (currentWord s) →
     ∃ diffPositions,
       tip = TipFocusOn diffPositions
       ∧ diffPositions ≠ []
       ∧ length diffPositions = Entry.mistakes (entryOf s endTime)
       ∧ focusPositions tip = mismatchPositions inputWord (targetWordOf (currentWord s))).
Proof.
  intros Hascii Hwrong inputWord tip. split; [|split].
  - intros Hshort. unfold tip, tipOf.
    rewrite bool_decide_eq_true_2 by lia.
    by destruct (Nat.ltb_spec (String.length inputWord) (String.length (currentWord s))); [|lia].
  - intros Hlong. unfold tip, tipOf.
    rewrite bool_decide_eq_true_2 by lia.
    by destruct (Nat.ltb_spec (String.length inputWord) (String.length (currentWord s))); [lia|].
  - intros Hsame.
    destruct (tipOf_focus inputWord (currentWord s) Hascii Hsame)
      as (diffPositions & Htip & Hpositions).
    assert (length diffPositions = Entry.mistakes (entryOf s endTime)) as Hcount.
    { rewrite <- (length_map (λ d : nat * option ascii * option ascii, d.1.1)), Hpositions.
      symmetry. apply countMistakes_positions. }
    exists diffPositions. split; [done|]. split; [|split; [done|]].
    + intros ->. symmetry in Hcount. change (length []) with 0 in Hcount.
      apply no_mistakes_correct in Hcount. congruence.
    + unfold tip. by rewrite Htip.
Qed.

Lemma X3_feedback_tip_witness :
  tipOf (userWordOf "so") "sun" = TipMissedLetters.
Proof.
  apply (X3_feedback_tip (typing "sun" "so" 1000) 2500 eq_refl eq_refl). vm_compute. lia.
Defined.

Lemma prefix_app (sub rest : string) : String.prefix sub (sub +:+ rest) = true.
Proof.
  induction sub as [|c sub IH]; simpl; [by destruct rest|].
  destruct (ascii_dec c c); [done | congruence].
Qed.

Lemma prefix_app_l (sub s rest : string) :
  String.prefix sub s = true → String.prefix sub (s +:+ rest) = true.
Proof.
  revert s. induction sub as [|c sub IH]; intros s; simpl.
  - intros _. by destruct (s +:+ rest).
  - destruct s as [|d s]; simpl; [done|]. destruct (ascii_dec c d); [apply IH | done].
Qed.

Lemma includes_app_l (s rest sub : string) :
  includes s sub = true → includes (s +:+ rest) sub = true.
Proof.
  induction s as [|c s IH].
  - simpl. rewrite orb_false_r. intros Hprefix.
    destruct sub; [by destruct rest | done].
  - change (includes (String c s) sub)
      with (String.prefix sub (String c s) || includes s sub).
    change (includes (String c s +:+ rest) sub)
      with (String.prefix sub (String c s +:+ rest) || includes (s +:+ rest) sub).
    intros [Hprefix | Hlater]%orb_true_iff.
    + by rewrite prefix_app_l.
    + rewrite IH by done. apply orb_true_r.
Qed.

Lemma includes_app_r (before s sub : string) :
  includes s sub = true → includes (before +:+ s) sub = true.
Proof.
  intros Hs. induction before as [|c before IH]; [done|].
  change (includes (String c before +:+ s) sub)
    with (String.prefix sub (String c before +:+ s) || includes (before +:+ s) sub).
  rewrite IH. apply orb_true_r.
Qed.

Lemma includes_here (sub rest : string) : includes (sub +:+ rest) sub = true.
Proof.
  assert (includes (sub +:+ rest) sub
          = String.prefix sub (sub +:+ rest)
            || match sub +:+ rest with
               | EmptyString => false
               | String _ r => includes r sub
               end) as -> by (by destruct (sub +:+ rest)).
  by rewrite prefix_app.
Qed.

Lemma comparisonText_check (comparison : list bool) (i : nat) :
  comparison !! i = Some true →
  includes (comparisonText comparison) checkMark = true.
Proof.
  revert i. induction comparison as [|m comparison IH]; intros i Hi; [done|].
  change (comparisonText (m :: comparison))
    with ((if m then checkMark else crossMark) +:+ comparisonText comparison).
  destruct i as [|i].
  - injection Hi as ->. apply includes_here.
  - apply includes_app_r. by eapply IH.
Qed.

Lemma feedbackText_check (currentWord inputWord : string) (comparison : list bool)
    (tip : Tip) (i : nat) :
  comparison !! i = Some true →
  falsy (feedbackText currentWord inputWord comparison tip) = false
  ∧ bannerCorrect (feedbackText currentWord inputWord comparison tip) = true.
Proof.
  intros Hi. split; [done|].
  unfold bannerCorrect, feedbackText.
  apply (includes_app_r "The word was: "), includes_app_r, includes_app_r.
  apply (includes_app_r "Your typing: "), includes_app_r, includes_app_r.
  apply (includes_app_r "Accuracy:   "), includes_app_l.
  by apply (comparisonText_check _ i).
Qed.

(** What an accepted submission leaves in the [message] cell: the
    feedback on the attempt, unless the attempt is the last of its set,
    where the text of line 257 or of line 331 replaces it at once. *)
Lemma handleSubmit_message (endTime : Z) (w : World) :
  submitRejected (state w) = false →
  message (state (handleSubmit endTime w))
  = Some (if completesSet (state w)
          then match phase (state w) with
               | initial => MsgAnalyzing
               | _ => MsgCompleting
               end
          else feedbackOf (state w) (entryOf (state w) endTime)).
Proof.
  intros Hguard. unfold handleSubmit, completesSet. rewrite Hguard.
  destruct (TOTAL_WORDS <=? wordCount (state w) + 1); [|done].
  destruct (phase (state w)), (childData (state w)); done.
Qed.

(** X4: the feedback banner takes its colour from
    [message.includes('✓')], and the marks of the comparison are part of
    the feedback text.  So an attempt that is not correct but has a
    matching character at some position is shown in the style of a
    correct one, unless it is the last attempt of its set: there the
    handler replaces the feedback by the text of the analysis or of the
    save, which has no such mark. *)
Theorem X4_wrong_attempt_banner (fixed1 : Q → string) (w : World) (endTime : Z) (i : nat) :
  let s := state w in
  let inputWord := userWordOf (input s) in
  submitRejected s = false →
  Entry.correct (entryOf s endTime) = false →
  i < String.length inputWord →
  i < String.length (currentWord s) →
  charAt inputWord i = charToLowerCase <$> charAt (currentWord s) i →
  banner fixed1 (state (handleSubmit endTime w)) = Some (negb (completesSet s)).
Proof.
  intros s inputWord Hguard Hwrong Hin Hin' Hsame.
  unfold banner. rewrite handleSubmit_message by done. fold s.
  destruct (completesSet s).
  - by destruct (phase s).
  - unfold feedbackOf. rewrite Hwrong. fold inputWord.
    change (messageText fixed1
              (MsgFeedback (currentWord s) inputWord (comparisonOf inputWord (currentWord s))
                 (tipOf inputWord (currentWord s))))
      with (feedbackText (currentWord s) inputWord (comparisonOf inputWord (currentWord s))
              (tipOf inputWord (currentWord s))).
    destruct (feedbackText_check (currentWord s) inputWord
                (comparisonOf inputWord (currentWord s)) (tipOf inputWord (currentWord s)) i)
      as [-> ->]; [|done].
    unfold comparisonOf. rewrite list_lookup_fmap, lookup_seq_lt by lia. simpl.
    destruct (Nat.ltb_spec i (String.length inputWord)); [|lia].
    destruct (Nat.ltb_spec i (String.length (currentWord s))); [|lia].
    simpl. f_equal. by apply bool_decide_eq_true.
Qed.

Lemma X4_wrong_attempt_banner_witness :
  banner (λ _, "0.0")
    (state (handleSubmit 9000 (timed 1000 mounted |> onState (setInput "cot"))))
  = Some (negb (completesSet (state (timed 1000 mounted |> onState (setInput "cot"))))).
Proof.
  apply (X4_wrong_attempt_banner (λ _, "0.0")
           (timed 1000 mounted |> onState (setInput "cot")) 9000 0);
    [vm_compute; reflexivity | vm_compute; reflexivity | vm_compute; lia | vm_compute; lia
    | vm_compute; reflexivity].
Defined.

(** The fifth attempt of Scenario A's first set, typed wrongly with
    four letters right: shown as the others would be, it would be in
    the style of a correct attempt; as the last of its set it is
    not. *)
Example last_attempt_banner :
  banner (λ _, "0.0") (state (handleSubmit 15000 (beforeFifthSubmit |> onState (setInput "boot"))))
  = Some false.
Proof. vm_compute. reflexivity. Qed.

End Feedback.

(** ** What the card shows *)

Section Card.

#[local] Open Scope Q_scope.

(** X5: "Recent Results" shows the five latest attempts, newest first:
    as many rows as there are results, up to five, and row [k] is the
    attempt [k] places before the last. *)
Theorem X5_recent_results (results : list TypingResult) :
  length (recentResults results) = Nat.min 5 (length results)
  ∧ ∀ k, (k < Nat.min 5 (length results))%nat →
         recentResults results !! k = results !! (length results - 1 - k)%nat.
Proof.
  unfold recentResults. split.
  - rewrite length_reverse, length_drop. lia.
  - intros k Hk. rewrite reverse_lookup by (rewrite length_drop; lia).
    rewrite lookup_drop, length_drop. f_equal. lia.
Qed.

Lemma X5_recent_results_witness :
  recentResults (results (state afterFirstSet)) !! 0%nat
  = results (state afterFirstSet) !! (length (results (state afterFirstSet)) - 1 - 0)%nat.
Proof.
  apply (proj2 (X5_recent_results (results (state afterFirstSet))) 0%nat). vm_compute. lia.
Defined.

Lemma difficulty_generateNextWord closure now reply random w data :
  childData closure = Some data →
  difficulty (state (generateNextWord closure now reply random w))
  = difficulty (adjustDifficulty (difficulty closure) (shareCorrect (results closure)) (state w)).
Proof.
  intros Hdata. unfold generateNextWord. rewrite Hdata.
  unfold adjustDifficulty. repeat case_match; done.
Qed.

Lemma adjustDifficulty_tier (accuracy : Q) (s : State) :
  difficulty (adjustDifficulty (difficulty s) accuracy s) = tierOf accuracy.
Proof.
  unfold adjustDifficulty, tierOf, Qltb, Qgeb.
  destruct (Qle_bool 90 accuracy) eqn:H90; destruct (Qle_bool 70 accuracy) eqn:H70; simpl.
  - by case_bool_decide.
  - apply Qle_bool_iff in H90.
    assert (Qle_bool 70 accuracy = true) by (apply Qle_bool_iff; lra). congruence.
  - by case_bool_decide.
  - by case_bool_decide.
Qed.

Lemma tierOf_ranges (accuracy : Q) :
  (90 <= accuracy → tierOf accuracy = hard)
  ∧ (70 <= accuracy → accuracy < 90 → tierOf accuracy = medium)
  ∧ (accuracy < 70 → tierOf accuracy = easy).
Proof.
  unfold tierOf, Qgeb.
  destruct (Qle_bool 90 accuracy) eqn:H90; destruct (Qle_bool 70 accuracy) eqn:H70;
    try apply Qle_bool_iff in H90; try apply Qle_bool_iff in H70;
    repeat split; intros; try done; try lra.
  - assert (Qle_bool 90 accuracy = true) by (by apply Qle_bool_iff). congruence.
  - assert (Qle_bool 90 accuracy = true) by (by apply Qle_bool_iff). congruence.
  - assert (Qle_bool 70 accuracy = true) by (by apply Qle_bool_iff). congruence.
Qed.

(** X6: when the next word is generated from a render whose difficulty
    is the current one, the difficulty becomes the tier of the share of
    correct results of that render: hard from 90 percent, medium from 70
    to below 90, easy below 70. *)
Theorem X6_difficulty_tier (closure : State) (now : Z) (reply : WordReply) (random : Q)
    (w : World) (data : ChildData) :
  childData closure = Some data →
  difficulty closure = difficulty (state w) →
  let share := shareCorrect (results closure) in
  let tier := difficulty (state (generateNextWord closure now reply random w)) in
  (90 <= share → tier = hard)
  ∧ (70 <= share → share < 90 → tier = medium)
  ∧ (share < 70 → tier = easy).
Proof.
  intros Hdata Hfresh share tier.
  assert (tier = tierOf share) as ->.
  { unfold tier. rewrite (difficulty_generateNextWord _ _ _ _ _ data) by done.
    rewrite Hfresh. apply adjustDifficulty_tier. }
  apply tierOf_ranges.
Qed.

Lemma X6_difficulty_tier_witness :
  difficulty (state (generateNextWord (state beforeFifthSubmit) 16600 (WordOk "book") 0
                       beforeFifthSubmit))
  = medium.
Proof.
  apply (X6_difficulty_tier (state beforeFifthSubmit) 16600 (WordOk "book") 0
           beforeFifthSubmit kid);
    [vm_compute; reflexivity | vm_compute; reflexivity | vm_compute; discriminate
    | vm_compute; reflexivity].
Defined.

Lemma share_at_least_90 (k n : nat) :
  (0 < n)%nat →
  (90 <= inject_Z (Z.of_nat k) / inject_Z (Z.of_nat n) * 100 ↔ (9 * n ≤ 10 * k)%nat).
Proof.
  intros Hn. destruct (Z.of_nat n) as [|p|p] eqn:Hp; [lia | | lia].
  unfold Qle, Qdiv, Qmult, Qinv, inject_Z. simpl. lia.
Qed.

Lemma all_correct_count (results : list TypingResult) :
  length (filter (λ r, Entry.correct r = true) results) = length results
  ↔ Forall (λ r, Entry.correct r = true) results.
Proof.
  induction results as [|r results IH]; [by split|].
  rewrite filter_cons, Forall_cons.
  pose proof (length_filter (λ r, Entry.correct r = true) results).
  case_decide; simpl; [rewrite <- IH; split; [intros; split; [done | lia] | intros [_ ?]; lia]|].
  split; [lia | tauto].
Qed.

(** X7: with fewer than ten results in the render, so throughout a set
    of five words, the next word is generated at the hard tier exactly
    when every result so far is correct: one wrong attempt keeps the
    difficulty off hard for the words that follow in the set. *)
Theorem X7_hard_needs_all_correct (closure : State) (now : Z) (reply : WordReply)
    (random : Q) (w : World) (data : ChildData) :
  childData closure = Some data →
  difficulty closure = difficulty (state w) →
  (length (results closure) < 10)%nat →
  (difficulty (state (generateNextWord closure now reply random w)) = hard
   ↔ Forall (λ r, Entry.correct r = true) (results closure)).
Proof.
  intros Hdata Hfresh Hfew.
  rewrite (difficulty_generateNextWord _ _ _ _ _ data) by done.
  rewrite Hfresh, adjustDifficulty_tier, <- all_correct_count.
  pose proof (length_filter (λ r, Entry.correct r = true) (results closure)) as Hle.
  unfold tierOf, Qgeb.
  destruct (results closure) as [|r rs] eqn:Hresults; [done|].
  rewrite <- Hresults in *.
  assert (0 < length (results closure))%nat as Hsome by (rewrite Hresults; simpl; lia).
  assert (shareCorrect (results closure)
          = inject_Z (Z.of_nat (length (filter (λ r, Entry.correct r = true) (results closure))))
            / inject_Z (Z.of_nat (length (results closure))) * 100) as ->
    by (by rewrite Hresults).
  destruct (Qle_bool 90 _) eqn:H90.
  - apply Qle_bool_iff, share_at_least_90 in H90; [|done]. split; [lia | done].
  - split; [by repeat case_match|]. intros Hall.
    assert (Qle_bool 90
              (inject_Z (Z.of_nat (length (filter (λ r, Entry.correct r = true)
                                             (results closure))))
               / inject_Z (Z.of_nat (length (results closure))) * 100) = true)
      by (apply Qle_bool_iff, share_at_least_90; [done | lia]).
    congruence.
Qed.

Lemma X7_hard_needs_all_correct_witness :
  difficulty (state (generateNextWord (state beforeFifthSubmit) 16600 (WordOk "book") 0
                       beforeFifthSubmit))
  = hard
  ↔ Forall (λ r, Entry.correct r = true) (results (state beforeFifthSubmit)).
Proof.
  apply (X7_hard_needs_all_correct (state beforeFifthSubmit) 16600 (WordOk "book") 0
           beforeFifthSubmit kid);
    [vm_compute; reflexivity | vm_compute; reflexivity | vm_compute; lia].
Defined.

End Card.

(** ** Mounting and the first word *)

Section Mounting.

Lemma run_after_navigation (events : list Event) (w : World) :
  is_Some (navigated w) → run w events = w.
Proof.
  intros [to Hto]. induction events as [|e events IH]; [done|].
  change (run w (e :: events)) with (run (step w e) events).
  assert (step w e = w) as -> by (unfold step; by rewrite Hto). done.
Qed.

(** X8: when the request for the first word fails there is no fallback
    word: the error text, which is never empty, is put up, the loading
    card goes away, and for the rest of the session the word box stays
    empty and nothing but the first request is sent. *)
Theorem X8_first_word_failure (storage : SessionStorage) (data : ChildData)
    (reply : WordReply) (events : list Event) :
  wordFailed reply →
  let w := run (mount storage (Some (mkStoredChild data "typing")) reply) events in
  falsy (caughtMessage reply) = false
  ∧ error (state w) = Some (caughtMessage reply)
  ∧ currentWord (state w) = ""
  ∧ results (state w) = []
  ∧ requests w = [GenerateInitialWord data]
  ∧ loading (state (mount storage (Some (mkStoredChild data "typing")) reply)) = false.
Proof.
  intros Hreply w.
  assert (wordless (caughtMessage reply)
            (mount storage (Some (mkStoredChild data "typing")) reply)) as Hmount.
  { unfold mount, generateInitialWord, wordless. simpl. by destruct reply. }
  destruct (run_wordless _ events _ Hmount) as (Hword & Herror & _ & Hresults & _).
  destruct (run_idle _ events _
              (mount_idle storage (Some (mkStoredChild data "typing")) reply))
    as (_ & _ & _ & _ & _ & Hrequests).
  fold w in Hword, Herror, Hresults, Hrequests.
  split; [by apply caughtMessage_nonempty|].
  split; [done|]. split; [done|]. split; [done|]. split.
  - rewrite Hrequests. unfold mount, generateInitialWord. simpl. by destruct reply.
  - unfold mount, generateInitialWord. simpl. by destruct reply.
Qed.

Lemma X8_first_word_failure_witness :
  error (state (run (mount emptyStorage (Some (mkStoredChild kid "typing")) (WordRefused None))
                  [Change "cat"; Submit 3000]))
  = Some "Failed to generate word".
Proof.
  apply (X8_first_word_failure emptyStorage kid (WordRefused None)
           [Change "cat"; Submit 3000] I).
Defined.

(** X9: without a stored child the component sends nothing and goes to
    the login page; with a child whose game is not typing it sends
    nothing and goes to the landing page; in both cases no later event
    has any effect. *)
Theorem X9_mount_redirects (storage : SessionStorage) (stored : option StoredChild)
    (reply : WordReply) (events : list Event) :
  (∀ parsed, stored = Some parsed → preferredGame parsed ≠ "typing") →
  let w := mount storage stored reply in
  requests w = []
  ∧ navigated w = Some (match stored with None => "/child-login" | Some _ => "/landing" end)
  ∧ run w events = w.
Proof.
  intros Hgame w.
  assert (requests w = []
          ∧ navigated w
            = Some (match stored with None => "/child-login" | Some _ => "/landing" end))
    as [Hnone Hgone].
  { unfold w, mount. destruct stored as [parsed|]; [|done].
    rewrite bool_decide_eq_true_2 by (by apply Hgame). done. }
  split; [done|]. split; [done|].
  apply run_after_navigation. rewrite Hgone. by eexists.
Qed.

Lemma X9_mount_redirects_witness :
  navigated (mount emptyStorage (Some (mkStoredChild kid "memory")) (WordOk "cat"))
  = Some "/landing".
Proof.
  apply (X9_mount_redirects emptyStorage (Some (mkStoredChild kid "memory")) (WordOk "cat") []).
  intros parsed [= <-]. vm_compute. discriminate.
Defined.

End Mounting.

(** ** The stored queue of targeted words *)

Section TargetedWords.

(** One word taken from the queue. *)
Lemma generateNextWord_dequeue closure now reply random w data words i :
  childData closure = Some data →
  phase closure = targeted →
  targetedWords (sessionStorage w) !! sessionId data = Some words →
  default 0 (targetedWordIndex (sessionStorage w) !! sessionId data) = i →
  i < length words →
  let w' := generateNextWord closure now reply random w in
  currentWord (state w') = default "" (words !! i)
  ∧ startTime (state w') = Some now
  ∧ isGeneratingWord (state w') = false
  ∧ error (state w') = None
  ∧ targetedWordIndex (sessionStorage w') !! sessionId data = Some (i + 1)
  ∧ targetedWords (sessionStorage w') = targetedWords (sessionStorage w)
  ∧ firstSetResults (sessionStorage w') = firstSetResults (sessionStorage w)
  ∧ requests w' = requests w
  ∧ results (state w') = results (state w)
  ∧ pending w' = pending w.
Proof.
  intros Hdata Hphase Hwords Hindex Hi.
  assert (queuedWord closure data (sessionStorage w) = Some (i, default "" (words !! i)))
    as Hqueue.
  { unfold queuedWord. rewrite Hwords, Hphase, Hindex. simpl.
    by destruct (Nat.ltb_spec i (length words)); [|lia]. }
  unfold generateNextWord. rewrite Hdata. simpl. rewrite Hqueue.
  unfold adjustDifficulty. repeat case_match; simpl; rewrite lookup_insert_eq; done.
Qed.

(** A call that nothing interrupts is its two parts, one straight
    after the other. *)
Lemma generateNextWord_read_show closure now reply random w held :
  (generateNextWord_read closure w).2 = Some held →
  generateNextWord closure now reply random w
  = generateNextWord_show held now (generateNextWord_read closure w).1.
Proof.
  unfold generateNextWord, generateNextWord_read, generateNextWord_show.
  destruct (childData closure) as [data|]; [|done]. simpl.
  destruct (queuedWord closure data _) as [[currentIndex word]|]; [|done].
  by intros [= <-].
Qed.

(** The first part of a call: what it reads from the stored queue, and
    that it leaves the queue and its index alone. *)
Lemma generateNextWord_read_queue closure w data words i :
  childData closure = Some data →
  phase closure = targeted →
  targetedWords (sessionStorage w) !! sessionId data = Some words →
  default 0 (targetedWordIndex (sessionStorage w) !! sessionId data) = i →
  i < length words →
  (generateNextWord_read closure w).2 = Some (data, i, default "" (words !! i))
  ∧ sessionStorage (generateNextWord_read closure w).1 = sessionStorage w
  ∧ requests (generateNextWord_read closure w).1 = requests w.
Proof.
  intros Hdata Hphase Hwords Hindex Hi.
  assert (queuedWord closure data (sessionStorage w) = Some (i, default "" (words !! i)))
    as Hqueue.
  { unfold queuedWord. rewrite Hwords, Hphase, Hindex. simpl.
    by destruct (Nat.ltb_spec i (length words)); [|lia]. }
  unfold generateNextWord_read. rewrite Hdata.
  unfold adjustDifficulty. repeat case_match; simpl; rewrite Hqueue; done.
Qed.

(** X10: in the second set, as long as the stored index is inside the
    stored queue, calls of the next-word generator that run one after
    the other (each returns before the next starts) each take the word
    at the index, move the index on by one, restart the timer and send
    nothing: [n] such calls from index [i] end with word [i + n - 1] on
    display, its timer started by the last call, and the index at
    [i + n].  A call waits between reading the index and writing it
    back (line 126): of two calls of which the second starts during
    the wait of the first, both read index [i] and both show word [i],
    and the index ends at [i + 1]. *)
Theorem X10_queue_in_order (data : ChildData) (words : list string) (calls : list NextWordCall)
    (w : World) (i : nat) :
  targetedWords (sessionStorage w) !! sessionId data = Some words →
  default 0 (targetedWordIndex (sessionStorage w) !! sessionId data) = i →
  Forall (targetedCall data) calls →
  i + length calls ≤ length words →
  (let w' := generateNextWords w calls in
   requests w' = requests w
   ∧ targetedWords (sessionStorage w') !! sessionId data = Some words
   ∧ default 0 (targetedWordIndex (sessionStorage w') !! sessionId data) = i + length calls
   ∧ ∀ c, last calls = Some c →
          currentWord (state w') = default "" (words !! (i + length calls - 1))
          ∧ startTime (state w') = Some (callNow c)
          ∧ isGeneratingWord (state w') = false)
  ∧ (∀ (c : NextWordCall) (w0 : World) held,
       (generateNextWord_read (callClosure c) w0).2 = Some held →
       generateNextWords w0 [c]
       = generateNextWord_show held (callNow c) (generateNextWord_read (callClosure c) w0).1)
  ∧ (∀ first second : NextWordCall,
       targetedCall data first → targetedCall data second → i < length words →
       let held := (data, i, default "" (words !! i)) in
       let started := generateNextWord_read (callClosure first) w in
       let startedToo := generateNextWord_read (callClosure second) started.1 in
       let shown := generateNextWord_show held (callNow first) startedToo.1 in
       let shownAgain := generateNextWord_show held (callNow second) shown in
       started.2 = Some held
       ∧ startedToo.2 = Some held
       ∧ currentWord (state shown) = default "" (words !! i)
       ∧ currentWord (state shownAgain) = default "" (words !! i)
       ∧ startTime (state shownAgain) = Some (callNow second)
       ∧ targetedWordIndex (sessionStorage shownAgain) !! sessionId data = Some (i + 1)
       ∧ requests shownAgain = requests w).
Proof.
  intros Hwords Hindex Hcalls Hroom. split; [|split].
  - revert w i Hwords Hindex Hroom.
    induction Hcalls as [|c calls [Hdata Hphase] Hcalls IH]; intros w i Hwords Hindex Hroom.
    { simpl. rewrite Nat.add_0_r. done. }
    simpl in Hroom.
    destruct (generateNextWord_dequeue (callClosure c) (callNow c) (callReply c)
                (callRandom c) w data words i)
      as (Hword & Htimer & Hgen & _ & Hnext & Hkept & _ & Hsent & _); try done; [lia|].
    set (w1 := generateNextWord (callClosure c) (callNow c) (callReply c) (callRandom c) w)
      in *.
    destruct (IH w1 (i + 1)) as (IHsent & IHwords & IHindex & IHlast);
      [by rewrite Hkept | by rewrite Hnext | lia |].
    change (generateNextWords w (c :: calls)) with (generateNextWords w1 calls).
    simpl length.
    split; [congruence|]. split; [done|]. split; [rewrite IHindex; lia|].
    intros c' Hlast. destruct calls as [|c2 calls].
    + injection Hlast as <-. simpl. rewrite Nat.add_sub.
      replace (i + 1 - 1) with i in * by lia. done.
    + destruct (IHlast c') as (? & ? & ?); [done|].
      replace (i + S (length (c2 :: calls)) - 1) with (i + 1 + length (c2 :: calls) - 1)
        by lia.
      done.
  - intros c w0 held Hheld. by apply generateNextWord_read_show.
  - intros first second [Hdata1 Hphase1] [Hdata2 Hphase2] Hi held started startedToo
           shown shownAgain.
    destruct (generateNextWord_read_queue (callClosure first) w data words i)
      as (Hheld1 & Hstorage1 & Hsent1); try done.
    fold started in Hheld1, Hstorage1, Hsent1.
    destruct (generateNextWord_read_queue (callClosure second) started.1 data words i)
      as (Hheld2 & Hstorage2 & Hsent2); try done; [by rewrite Hstorage1..|].
    fold startedToo in Hheld2, Hstorage2, Hsent2.
    split; [done|]. split; [done|]. split; [done|]. split; [done|]. split; [done|].
    split; [|by rewrite <- Hsent1, <- Hsent2].
    simpl. by rewrite lookup_insert_eq.
Qed.

Lemma X10_queue_in_order_witness :
  let calls := [mkCall (state inSecondSet) 24600 (WordOk "unused") 0;
                mkCall (state inSecondSet) 27600 (WordOk "unused") 0] in
  currentWord (state (generateNextWords inSecondSet calls)) = "dab"
  ∧ startTime (state (generateNextWords inSecondSet calls)) = Some 27600%Z.
Proof.
  intros calls.
  destruct (X10_queue_in_order kid ["bed"; "dab"] calls inSecondSet 0)
    as ((_ & _ & _ & Hlast) & _);
    [vm_compute; reflexivity | vm_compute; reflexivity
    | repeat constructor | vm_compute; lia |].
  destruct (Hlast (mkCall (state inSecondSet) 27600 (WordOk "unused") 0) eq_refl)
    as (Hword & Htimer & _).
  split; [exact Hword | exact Htimer].
Defined.

(** Two submissions less than a second apart in the second set: the
    second call of the generator starts while the first one waits, and
    the word ["bed"] is shown for both, where calls one after the other
    would have gone on to ["dab"]. *)
Example overlapping_calls_repeat_a_word :
  let first := mkCall (state inSecondSet) 24600 (WordOk "unused") 0 in
  let second := mkCall (state inSecondSet) 25100 (WordOk "unused") 0 in
  let started := generateNextWord_read (callClosure first) inSecondSet in
  let startedToo := generateNextWord_read (callClosure second) started.1 in
  let shown :=
    generateNextWord_show (kid, 0, "bed") (callNow second)
      (generateNextWord_show (kid, 0, "bed") (callNow first) startedToo.1) in
  started.2 = Some (kid, 0, "bed")
  ∧ startedToo.2 = Some (kid, 0, "bed")
  ∧ currentWord (state shown) = "bed"
  ∧ targetedWordIndex (sessionStorage shown) !! sessionId kid = Some 1
  ∧ currentWord (state (generateNextWords inSecondSet [first; second])) = "dab".
Proof. vm_compute. done. Qed.

(** X11: the first targeted word is presented twice.  When the targeted
    words arrive the first of them is put on display while the stored
    index is left at 0, so the next call of the generator takes the same
    word from the queue again. *)
Theorem X11_first_targeted_word_twice (data : ChildData) (newResults : list TypingResult)
    (a : Analysis) (word : string) (rest : list string) (shownAt : Z) (w : World)
    (closure : State) (now : Z) (reply : WordReply) (random : Q) :
  childData closure = Some data →
  phase closure = targeted →
  let entered :=
    resumeAnalysis data newResults (AnalysisSuccess a) (TargetedSuccess (word :: rest))
      shownAt w in
  let next := generateNextWord closure now reply random entered in
  currentWord (state entered) = word
  ∧ currentWord (state next) = word
  ∧ targetedWordIndex (sessionStorage next) !! sessionId data = Some 1
  ∧ requests next = requests entered.
Proof.
  intros Hdata Hphase entered next.
  destruct (resumeAnalysis_entered data newResults a (word :: rest) shownAt w)
    as (_ & _ & _ & _ & _ & _ & Hwords & Hindex).
  fold entered in Hwords, Hindex.
  destruct (generateNextWord_dequeue closure now reply random entered data (word :: rest) 0)
    as (Hword & _ & _ & _ & Hnext & _ & _ & Hsent & _); try done.
  - by rewrite Hindex.
  - simpl. lia.
Qed.

Lemma X11_first_targeted_word_twice_witness :
  let entered :=
    resumeAnalysis kid (results (state afterFirstSet)) (AnalysisSuccess diagnosis)
      (TargetedSuccess ("bed" :: ["dab"])) 20000 (taken 0 afterFirstSet) in
  currentWord (state entered) = "bed"
  ∧ currentWord (state (generateNextWord (state inSecondSet) 24600 (WordOk "unused") 0 entered))
    = "bed".
Proof.
  intros entered.
  destruct (X11_first_targeted_word_twice kid (results (state afterFirstSet)) diagnosis
              "bed" ["dab"] 20000 (taken 0 afterFirstSet) (state inSecondSet) 24600
              (WordOk "unused") 0)
    as (Hfirst & Hagain & _); [vm_compute; reflexivity | vm_compute; reflexivity |].
  split; [exact Hfirst | exact Hagain].
Defined.

Lemma step_blank (w : World) (e : Event) : blank w → blank (step w e).
Proof.
  intros (Hword & Hresults & Hpending). unfold step.
  destruct (navigated w); [done|].
  assert (∀ k, Forall wordFree (delete k (pending w))) as Htaken.
  { intros k. by apply Forall_delete. }
  destruct e; simpl; try done.
  - case_match; done.
  - case_match; [|done].
    unfold handleSubmit, submitRejected. by rewrite Hword.
  - case_match; [|done].
    unfold closeClick, closeFinally, blank. rewrite Hresults.
    repeat case_match; done.
  - destruct (pending w !! k) as [[]|] eqn:Hk; try done.
    split; [done|]. split; [done|]. apply Htaken.
  - destruct (pending w !! k) as [[]|] eqn:Hk; try done.
    by apply (Forall_lookup_1 _ _ _ _ Hpending) in Hk.
  - destruct (pending w !! k) as [[]|] eqn:Hk; try done.
    split; [done|]. split; [done|]. apply Htaken.
  - destruct (pending w !! k) as [[]|] eqn:Hk; try done.
    by apply (Forall_lookup_1 _ _ _ _ Hpending) in Hk.
  - destruct (pending w !! k) as [[]|] eqn:Hk; try done.
    unfold resumeFinish, saveResults, blank.
    repeat case_match; simpl; repeat split; try done;
      rewrite ?Forall_app; try split; try apply Htaken; by repeat constructor.
  - destruct (pending w !! k) as [[]|] eqn:Hk; try done.
    split; [done|]. split; [done|]. apply Htaken.
Qed.

Lemma run_blank (events : list Event) (w : World) : blank w → blank (run w events).
Proof.
  revert w. induction events as [|e events IH]; intros w Hw; simpl; [done|].
  apply IH. by apply step_blank.
Qed.

(** X12: an empty list of targeted words stops the session.  The second
    set is entered with no word on display, and unless a word request
    was already on its way no later event shows one: every submission
    stops at the guard and no attempt of the second set is recorded. *)
Theorem X12_empty_targeted_list (data : ChildData) (newResults : list TypingResult)
    (a : Analysis) (shownAt : Z) (w : World) (events : list Event) :
  Forall wordFree (pending w) →
  let entered :=
    resumeAnalysis data newResults (AnalysisSuccess a) (TargetedSuccess []) shownAt w in
  phase (state entered) = targeted
  ∧ currentWord (state (run entered events)) = ""
  ∧ results (state (run entered events)) = []
  ∧ ∀ endTime, handleSubmit endTime (run entered events) = run entered events.
Proof.
  intros Hpending entered.
  assert (blank (run entered events)) as (Hword & Hresults & _).
  { apply run_blank. by repeat split. }
  split; [done|]. split; [done|]. split; [done|].
  intros endTime. unfold handleSubmit, submitRejected. by rewrite Hword.
Qed.

Lemma X12_empty_targeted_list_witness :
  currentWord
    (state (run (resumeAnalysis kid (results (state afterFirstSet)) (AnalysisSuccess diagnosis)
                   (TargetedSuccess []) 20000 (taken 0 afterFirstSet))
              [Change "bed"; Submit 23000]))
  = "".
Proof.
  apply (X12_empty_targeted_list kid (results (state afterFirstSet)) diagnosis 20000
           (taken 0 afterFirstSet) [Change "bed"; Submit 23000]).
  vm_compute. constructor.
Defined.

(** X13: for a word taken from the stored queue the recorded time is
    the time from the moment the generator showed it to the submission,
    and the recorded target is that word. *)
Theorem X13_time_of_queued_word (closure : State) (now : Z) (reply : WordReply) (random : Q)
    (w : World) (data : ChildData) (words : list string) (i : nat) (word typed : string)
    (endTime : Z) :
  childData closure = Some data →
  phase closure = targeted →
  targetedWords (sessionStorage w) !! sessionId data = Some words →
  default 0 (targetedWordIndex (sessionStorage w) !! sessionId data) = i →
  words !! i = Some word →
  falsy word = false →
  falsy (trim typed) = false →
  now ≠ 0%Z →
  let shown := generateNextWord closure now reply random w in
  let submitted := handleSubmit endTime (shown |> onState (setInput typed)) in
  ∃ entry,
    results (state submitted) = results (state w) ++ [entry]
    ∧ Entry.word entry = word
    ∧ Entry.timeSpent entry = (endTime - now)%Z.
Proof.
  intros Hdata Hphase Hwords Hindex Hword Hshown Htyped Hnow shown submitted.
  destruct (generateNextWord_dequeue closure now reply random w data words i)
    as (Hcurrent & Htimer & _ & _ & _ & _ & _ & _ & Hresults & _); try done.
  { by apply lookup_lt_Some in Hword. }
  fold shown in Hcurrent, Htimer, Hresults. rewrite Hword in Hcurrent. simpl in Hcurrent.
  assert (submitRejected (state (shown |> onState (setInput typed))) = false) as Hguard.
  { unfold submitRejected. simpl. rewrite Hcurrent, Htimer, Hshown, Htyped. simpl.
    by apply bool_decide_eq_false. }
  destruct (handleSubmit_accepted endTime _ Hguard) as (Hadded & _).
  exists (entryOf (state (shown |> onState (setInput typed))) endTime).
  split; [|split].
  - unfold submitted. rewrite Hadded. simpl. by rewrite Hresults.
  - simpl. done.
  - simpl. by rewrite Htimer.
Qed.

Lemma X13_time_of_queued_word_witness :
  ∃ entry,
    results (state (handleSubmit 26000
                      (generateNextWord (state inSecondSet) 24600 (WordOk "unused") 0 inSecondSet
                       |> onState (setInput "bed"))))
    = results (state inSecondSet) ++ [entry]
    ∧ Entry.word entry = "bed"
    ∧ Entry.timeSpent entry = (26000 - 24600)%Z.
Proof.
  apply (X13_time_of_queued_word (state inSecondSet) 24600 (WordOk "unused") 0 inSecondSet kid
           ["bed"; "dab"] 0 "bed" "bed" 26000);
    [vm_compute; reflexivity | vm_compute; reflexivity | vm_compute; reflexivity
    | vm_compute; reflexivity | reflexivity | reflexivity | reflexivity | discriminate].
Defined.

End TargetedWords.

(** ** Saving and leaving *)

Section Saving.

#[local] Arguments Nat.leb : simpl never.

Lemma resumeFinish_storage data newResults closure reply w :
  sessionStorage (resumeFinish data newResults closure reply w)
  = removeSessionKeys (sessionId data) (sessionStorage w).
Proof. unfold resumeFinish, saveResults. repeat case_match; done. Qed.

(** X14: the handlers write only the keys of their own session.  For
    any other session id, what [sessionStorage] holds is the same
    before and after a word is generated, the targeted set is entered,
    or the second set is saved; and saving removes the three keys of its
    own session whatever the server answers. *)
Theorem X14_storage_of_other_sessions (other : string) (data : ChildData) (w : World)
    (closure : State) (now : Z) (wordReply : WordReply) (random : Q)
    (newResults : list TypingResult) (analysisReply : AnalysisReply)
    (targetedReply : TargetedReply) (shownAt : Z) (saveReply : SaveReply) :
  other ≠ sessionId data →
  childData closure = Some data →
  keysOf other (sessionStorage (generateNextWord closure now wordReply random w))
  = keysOf other (sessionStorage w)
  ∧ keysOf other
      (sessionStorage (resumeAnalysis data newResults analysisReply targetedReply shownAt w))
    = keysOf other (sessionStorage w)
  ∧ keysOf other (sessionStorage (resumeFinish data newResults closure saveReply w))
    = keysOf other (sessionStorage w)
  ∧ keysOf (sessionId data) (sessionStorage (resumeFinish data newResults closure saveReply w))
    = (None, None, None).
Proof.
  intros Hother Hdata. unfold keysOf. split; [|split; [|split]].
  - unfold generateNextWord, adjustDifficulty. rewrite Hdata.
    repeat case_match; simpl; rewrite ?lookup_insert_ne by done; done.
  - unfold resumeAnalysis, enterTargeted.
    repeat case_match; simpl; rewrite ?lookup_insert_ne by done; done.
  - rewrite resumeFinish_storage. simpl. by rewrite !lookup_delete_ne.
  - rewrite resumeFinish_storage. simpl. by rewrite !lookup_delete_eq.
Qed.

Lemma X14_storage_of_other_sessions_witness :
  keysOf "s2" (sessionStorage (resumeFinish kid [] (state beforeLastSubmit) SaveThrows
                                 beforeLastSubmit))
  = keysOf "s2" (sessionStorage beforeLastSubmit).
Proof.
  destruct (X14_storage_of_other_sessions "s2" kid beforeLastSubmit (state beforeLastSubmit) 0
              (WordOk "x") 0 [] AnalysisThrows TargetedThrows 0 SaveThrows)
    as (_ & _ & Hkept & _); [vm_compute; discriminate | vm_compute; reflexivity |].
  exact Hkept.
Defined.

Lemma resumeFinish_failed data newResults closure reply w :
  saveFailed reply →
  childData closure = Some data →
  let w' := resumeFinish data newResults closure reply w in
  loading (state w') = false
  ∧ pending w' = pending w
  ∧ navigated w' = navigated w
  ∧ results (state w') = results (state w)
  ∧ wordCount (state w') = wordCount (state w)
  ∧ phase (state w') = phase (state w)
  ∧ childData (state w') = childData (state w)
  ∧ currentWord (state w') = currentWord (state w)
  ∧ startTime (state w') = startTime (state w)
  ∧ analysis (state w') = analysis (state w)
  ∧ isGeneratingWord (state w') = isGeneratingWord (state w)
  ∧ ∃ text, message (state w') = Some text.
Proof.
  intros Hreply Hdata. unfold resumeFinish, saveResults. rewrite Hdata.
  destruct reply as [|e|fa]; [| |done]; simpl; repeat split; try done; by eexists.
Qed.

(** X15: a failed save cannot be repeated in full.  When the save of the
    merged results fails, the form is enabled again and no navigation is
    scheduled, but the stored first set has been removed with the other
    keys; the only way to save again is another submission, and what
    that one sends is the results of the second set with the new
    attempt, without any attempt of the first set. *)
Theorem X15_retry_after_failed_save (data : ChildData) (newResults : list TypingResult)
    (closure : State) (reply again : SaveReply) (w : World) (typed : string) (endTime : Z) :
  saveFailed reply →
  childData closure = Some data →
  childData (state w) = Some data →
  phase (state w) = targeted →
  TOTAL_WORDS ≤ wordCount (state w) + 1 →
  falsy (currentWord (state w)) = false →
  startTimeFalsy (startTime (state w)) = false →
  falsy (trim typed) = false →
  let failed := resumeFinish data newResults closure reply w in
  let typedAgain := failed |> onState (setInput typed) in
  let attempts := results (state w) ++ [entryOf (state typedAgain) endTime] in
  loading (state failed) = false
  ∧ pending failed = pending w
  ∧ firstSetResults (sessionStorage failed) !! sessionId data = None
  ∧ pending (handleSubmit endTime typedAgain)
    = pending w ++ [TimerClearMessage; AwaitFinish data attempts (state typedAgain)]
  ∧ requests (resumeFinish data attempts (state typedAgain) again
                (handleSubmit endTime typedAgain))
    = requests failed ++ [SaveTypingResults data attempts (analysis (state w)) true].
Proof.
  intros Hreply Hdata Hchild Hphase Hcount Hword Htimer Htyped failed typedAgain attempts.
  destruct (resumeFinish_failed data newResults closure reply w Hreply Hdata)
    as (Hloading & Hpending & _ & Hresults & Hcount' & Hphase' & Hchild' & Hword' & Htimer'
        & Hanalysis & _).
  fold failed in Hloading, Hpending, Hresults, Hcount', Hphase', Hchild', Hword', Htimer',
                 Hanalysis.
  assert (firstSetResults (sessionStorage failed) !! sessionId data = None) as Hgone.
  { unfold failed. rewrite resumeFinish_storage. simpl. apply lookup_delete_eq. }
  split; [done|]. split; [done|]. split; [done|].
  assert (submitRejected (state typedAgain) = false) as Hguard.
  { unfold submitRejected.
    change (currentWord (state typedAgain)) with (currentWord (state failed)).
    change (startTime (state typedAgain)) with (startTime (state failed)).
    change (input (state typedAgain)) with typed.
    by rewrite Hword', Htimer', Hword, Htimer, Htyped. }
  assert (phase (state typedAgain) = targeted) as Hphase2 by (by rewrite <- Hphase, <- Hphase').
  assert (childData (state typedAgain) = Some data) as Hchild2
    by (by rewrite <- Hchild, <- Hchild').
  assert (TOTAL_WORDS ≤ wordCount (state typedAgain) + 1) as Hcount2.
  { change (wordCount (state typedAgain)) with (wordCount (state failed)). lia. }
  destruct (handleSubmit_finishing endTime typedAgain data Hguard Hphase2 Hchild2 Hcount2)
    as (Hqueued & Hsent & Hstorage).
  split.
  { rewrite Hqueued. change (pending typedAgain) with (pending failed).
    change (results (state typedAgain)) with (results (state failed)).
    by rewrite Hpending, Hresults. }
  rewrite resumeFinish_requests by done.
  rewrite Hsent, Hstorage.
  change (sessionStorage typedAgain) with (sessionStorage failed).
  change (requests typedAgain) with (requests failed).
  change (analysis (state typedAgain)) with (analysis (state failed)).
  rewrite Hgone, Hanalysis. unfold attempts. done.
Qed.

Lemma X15_retry_after_failed_save_witness :
  let failed := resumeFinish kid (results (state beforeLastSubmit))
                  (state beforeLastSubmit) SaveThrows beforeLastSubmit in
  let typedAgain := failed |> onState (setInput "dig") in
  let attempts := results (state beforeLastSubmit) ++ [entryOf (state typedAgain) 36000] in
  requests (resumeFinish kid attempts (state typedAgain) (SaveOk None)
              (handleSubmit 36000 typedAgain))
  = requests failed ++ [SaveTypingResults kid attempts (analysis (state beforeLastSubmit)) true].
Proof.
  intros failed typedAgain attempts.
  destruct (X15_retry_after_failed_save kid (results (state beforeLastSubmit))
              (state beforeLastSubmit) SaveThrows (SaveOk None) beforeLastSubmit "dig" 36000)
    as (_ & _ & _ & _ & Hsent);
    [exact I | vm_compute; reflexivity | vm_compute; reflexivity | vm_compute; reflexivity
    | vm_compute; lia | vm_compute; reflexivity | vm_compute; reflexivity
    | vm_compute; reflexivity |].
  exact Hsent.
Defined.



(** X17: the close button.  With nothing in [results] it sends nothing
    and leaves for the landing page at once; otherwise it sends
    [results] once, and leaves when that request has settled, whether
    it succeeded or not.  It never touches [sessionStorage]: the keys of
    a session that is left early stay behind. *)
Theorem X17_close_button (w : World) (data : ChildData) :
  navigated w = None →
  cardShown (state w) = true →
  savingOnClose (state w) = false →
  childData (state w) = Some data →
  let clicked := step w Close in
  sessionStorage clicked = sessionStorage w
  ∧ (results (state w) = [] →
     requests clicked = requests w ∧ navigated clicked = Some "/landing")
  ∧ (results (state w) ≠ [] →
     requests clicked = requests w ++ [SaveOnClose data (results (state w))]
     ∧ navigated clicked = None
     ∧ pending clicked = pending w ++ [AwaitCloseSave]
     ∧ let left := step clicked (CloseSaveSettles (length (pending w))) in
       navigated left = Some "/landing"
       ∧ requests left = requests clicked
       ∧ sessionStorage left = sessionStorage w).
Proof.
  intros Hnav Hcard Hsaving Hdata clicked.
  assert (clicked = closeClick w) as -> by (unfold clicked, step; by rewrite Hnav, Hcard).
  unfold closeClick, closeFinally. rewrite Hsaving, Hdata.
  destruct (results (state w)) as [|r rs] eqn:Hresults; simpl.
  - split; [done|]. split; [done|]. by intros [].
  - split; [done|]. split; [done|]. intros _.
    split; [done|]. split; [done|]. split; [done|].
    unfold step, closeFinally. simpl. rewrite Hnav, lookup_app_r, Nat.sub_diag by done.
    done.
Qed.

Lemma X17_close_button_witness :
  requests (step midSecondSet Close)
  = requests midSecondSet ++ [SaveOnClose kid (results (state midSecondSet))].
Proof.
  destruct (X17_close_button midSecondSet kid) as (_ & _ & Hsends);
    [vm_compute; reflexivity | vm_compute; reflexivity | vm_compute; reflexivity
    | vm_compute; reflexivity |].
  destruct Hsends as (Hsent & _); [vm_compute; discriminate | exact Hsent].
Defined.

(** X18: in a session that has not sent a close-save yet, whatever the
    user does and whatever the server answers, the close handler sends
    at most one save request. *)
Theorem X18_at_most_one_close_save (w : World) (events : list Event) :
  closeSaves w = [] →
  savingOnClose (state w) = false →
  length (closeSaves (run w events)) ≤ 1.
Proof.
  intros Hnone Hsaving. apply run_closedAtMostOnce.
  split; [rewrite Hnone; simpl; lia | done].
Qed.

Lemma X18_at_most_one_close_save_witness :
  length (closeSaves (run midSecondSet [Close; Close; CloseSaveSettles 2; Close])) ≤ 1.
Proof.
  apply (X18_at_most_one_close_save midSecondSet [Close; Close; CloseSaveSettles 2; Close]);
    vm_compute; reflexivity.
Defined.

(** X19: the phase [analyzing] does not stop submissions.  While the
    analysis is awaited the form stays enabled; a submission is recorded
    like any other, schedules no next word and starts no second
    analysis, and it becomes part of what is stored as the first set
    when the targeted words arrive, although the analysis was made
    without it. *)
Theorem X19_attempt_while_analyzing (w : World) (endTime : Z) (data : ChildData)
    (newResults : list TypingResult) (a : Analysis) (words : list string) (shownAt : Z) :
  phase (state w) = analyzing →
  submitRejected (state w) = false →
  TOTAL_WORDS ≤ wordCount (state w) + 1 →
  let w' := handleSubmit endTime w in
  let entered :=
    resumeAnalysis data newResults (AnalysisSuccess a) (TargetedSuccess words) shownAt w' in
  results (state w') = results (state w) ++ [entryOf (state w) endTime]
  ∧ phase (state w') = analyzing
  ∧ pending w' = pending w ++ [TimerClearMessage]
  ∧ requests w' = requests w
  ∧ formEnabled (state w') = formEnabled (state w)
  ∧ firstSetResults (sessionStorage entered) !! sessionId data
    = Some (results (state w) ++ [entryOf (state w) endTime])
  ∧ requests entered
    = requests w ++ [AnalyzeTypingResults data newResults; GenerateTargetedWords data a].
Proof.
  intros Hphase Hguard Hcount w' entered.
  destruct (handleSubmit_accepted endTime w Hguard) as (Hresults & Hcount' & _ & Hsent & _).
  destruct (handleSubmit_frame endTime w) as (_ & _ & Hloading & Hgen & Hchild & _).
  pose proof (handleSubmit_phase endTime w Hguard) as Hphase'.
  pose proof (handleSubmit_pending endTime w Hguard) as Hpending.
  rewrite Hphase in Hphase', Hpending.
  destruct (Nat.leb_spec TOTAL_WORDS (wordCount (state w) + 1)); [|lia].
  fold w' in Hresults, Hcount', Hsent, Hphase', Hpending, Hloading, Hgen, Hchild.
  destruct (resumeAnalysis_entered data newResults a words shownAt w')
    as (_ & _ & _ & _ & Hrequests & Hstored & _).
  fold entered in Hrequests, Hstored.
  split; [done|]. split; [done|]. split; [done|]. split; [done|]. split.
  - unfold formEnabled, cardShown. rewrite Hloading, Hgen, Hchild, Hcount'.
    assert ((wordCount (state w) =? 0) = false) as ->
      by (apply Nat.eqb_neq; unfold TOTAL_WORDS in *; lia).
    assert ((wordCount (state w) + 1 =? 0) = false) as -> by (apply Nat.eqb_neq; lia).
    done.
  - split; [by rewrite Hstored, Hresults | by rewrite Hrequests, Hsent].
Qed.

Lemma X19_attempt_while_analyzing_witness :
  let typed := afterFirstSet |> onState (setInput "book") in
  firstSetResults
    (sessionStorage (resumeAnalysis kid (results (state afterFirstSet)) (AnalysisSuccess diagnosis)
                       (TargetedSuccess ["bed"; "dab"]) 20000 (handleSubmit 16000 typed)))
    !! sessionId kid
  = Some (results (state typed) ++ [entryOf (state typed) 16000]).
Proof.
  intros typed.
  destruct (X19_attempt_while_analyzing typed 16000 kid (results (state afterFirstSet))
              diagnosis ["bed"; "dab"] 20000)
    as (_ & _ & _ & _ & _ & Hstored & _);
    [vm_compute; reflexivity | vm_compute; reflexivity | vm_compute; lia |].
  exact Hstored.
Defined.

(** X20: a submission that cannot be scored changes nothing.  With only
    white space typed, or with no word on display, or with no timer
    running, the handler returns at its guard: no attempt is recorded,
    nothing is scheduled and nothing is sent. *)
Theorem X20_unscorable_submission (w : World) (endTime : Z) :
  allWhiteSpace (input (state w)) = true
  ∨ currentWord (state w) = ""
  ∨ startTime (state w) = None
  ∨ startTime (state w) = Some 0%Z →
  handleSubmit endTime w = w.
Proof.
  intros Hcase. apply handleSubmit_rejected. unfold submitRejected.
  destruct Hcase as [Hblank | [Hword | [Htimer | Htimer]]].
  - unfold trim. rewrite trimStart_whitespace by done.
    change (falsy (trimEnd "")) with true. by rewrite orb_true_r.
  - by rewrite Hword.
  - rewrite Htimer. apply orb_true_r.
  - rewrite Htimer. apply orb_true_r.
Qed.

Lemma X20_unscorable_submission_witness :
  handleSubmit 3000 (timed 1000 mounted |> onState (setInput "   "))
  = (timed 1000 mounted |> onState (setInput "   ")).
Proof.
  apply (X20_unscorable_submission (timed 1000 mounted |> onState (setInput "   ")) 3000).
  left. reflexivity.
Defined.

End Saving.

(** * Properties of the therapist's views *)

Section SessionCards.

Import Dashboard.

Lemma insertSorted_Permutation {A : Type} (compare : A → A → Z) (x : A) (l : list A) :
  insertSorted compare x l ≡ₚ x :: l.
Proof.
  induction l as [|y l IH]; simpl; [done|].
  case_match; [|done]. rewrite IH. apply Permutation_swap.
Qed.

Lemma sort_Permutation {A : Type} (compare : A → A → Z) (l : list A) :
  Dashboard.sort compare l ≡ₚ l.
Proof.
  induction l as [|x l IH]; simpl; [done|].
  by rewrite insertSorted_Permutation, IH.
Qed.

Lemma insertSorted_newest_first (s : ChildSession) (l : list ChildSession) :
  StronglySorted newerOrEqual l →
  StronglySorted newerOrEqual (insertSorted compareSessions s l).
Proof.
  induction 1 as [|t l Hsorted IH Hall]; simpl.
  - by repeat constructor.
  - unfold compareSessions at 1.
    destruct (Z.ltb_spec 0 (date t - date s)) as [Hlater | Hearlier].
    + constructor; [done|].
      rewrite insertSorted_Permutation. constructor; [|done].
      unfold newerOrEqual. lia.
    + constructor; [by constructor|]. constructor.
      * unfold newerOrEqual. lia.
      * eapply Forall_impl; [done|]. unfold newerOrEqual. intros; lia.
Qed.

Lemma sort_newest_first (l : list ChildSession) :
  StronglySorted newerOrEqual (Dashboard.sort compareSessions l).
Proof.
  induction l as [|s l IH]; simpl; [constructor|]. by apply insertSorted_newest_first.
Qed.

Lemma insertSorted_same_date (d : Z) (s : ChildSession) (l : list ChildSession) :
  filter (λ t, date t = d) (insertSorted compareSessions s l)
  = filter (λ t, date t = d) (s :: l).
Proof.
  induction l as [|t l IH]; simpl; [done|].
  unfold compareSessions at 1.
  destruct (Z.ltb_spec 0 (date t - date s)) as [Hlater | Hearlier]; [|done].
  rewrite (filter_cons _ t), IH, !filter_cons.
  repeat case_decide; try done; lia.
Qed.

Lemma sort_same_date (d : Z) (l : list ChildSession) :
  filter (λ t, date t = d) (Dashboard.sort compareSessions l) = filter (λ t, date t = d) l.
Proof.
  induction l as [|s l IH]; simpl; [done|].
  by rewrite insertSorted_same_date, !filter_cons, IH.
Qed.

(** X21: the cards of a child are the sessions that have typing
    results, each once, ordered from the newest to the oldest; sessions
    of the same date keep the order in which the server listed them. *)
Theorem X21_cards_newest_first (c : Child) :
  sessionCards c ≡ₚ filter (λ s, hasTypingResults s = true) (sessions c)
  ∧ StronglySorted newerOrEqual (sessionCards c)
  ∧ ∀ d, filter (λ s, date s = d) (sessionCards c)
         = filter (λ s, date s = d) (filter (λ s, hasTypingResults s = true) (sessions c)).
Proof.
  unfold sessionCards. split; [apply sort_Permutation|].
  split; [apply sort_newest_first|]. intros d. apply sort_same_date.
Qed.

Lemma round_percentage (x : Q) : (0 <= x)%Q → (x <= 100)%Q → (0 ≤ round x ≤ 100)%Z.
Proof.
  intros Hlow Hhigh. unfold round. split.
  - change 0%Z with (Qfloor 0). apply Qfloor_resp_le. lra.
  - change 100%Z with (Qfloor (100 + (1 # 2))). apply Qfloor_resp_le. lra.
Qed.

(** X22: the number of typing sessions shown next to a child's name is
    the number of cards shown for that child, and every card is for a
    session with at least one word, so the accuracy on a card is a
    quotient by a length that is not zero: a whole number from 0 to
    100. *)
Theorem X22_card_figures (c : Child) :
  typingSessionCount c = length (sessionCards c)
  ∧ ∀ s, s ∈ sessionCards c →
         0 < cardWords s ∧ (0 ≤ cardAccuracy s ≤ 100)%Z.
Proof.
  split.
  - unfold typingSessionCount, sessionCards. by rewrite sort_Permutation.
  - intros s Hs. unfold sessionCards in Hs. rewrite sort_Permutation in Hs.
    apply list_elem_of_filter in Hs as [Hresults _].
    unfold hasTypingResults in Hresults. unfold cardWords, cardAccuracy.
    destruct (typingResults s) as [[|r rs]|]; try done. simpl default.
    split; [simpl; lia|].
    destruct (ratio_bounds (length (filter (λ r, correct r = true) (r :: rs)))
                (length (r :: rs))) as [Hlow Hhigh]; [apply length_filter | simpl; lia |].
    apply round_percentage; lra.
Qed.

Lemma X22_card_figures_witness :
  0 < cardWords (mkSession "s4" 3000 "completed" (Some [mkRow "bed" "bed" true "t3"]))
  ∧ (0 ≤ cardAccuracy (mkSession "s4" 3000 "completed" (Some [mkRow "bed" "bed" true "t3"]))
     ≤ 100)%Z.
Proof.
  apply (proj2 (X22_card_figures sampleChild)). vm_compute. left.
Defined.

(** The cards of the sample child: the session without results and the
    one with an empty list are left out, the newer of the other two
    comes first. *)
Example sample_cards :
  map sessionId (sessionCards sampleChild) = ["s4"; "s1"]
  ∧ map cardAccuracy (sessionCards sampleChild) = [100%Z; 50%Z].
Proof. vm_compute. done. Qed.

End SessionCards.

Section Assessment.

Import AssessmentView.

Lemma fetches_app (s : ViewState) (first second : list FetchReply) :
  fetches s (first ++ second) = fetches (fetches s first) second.
Proof. unfold fetches. apply fold_left_app. Qed.

Lemma fetches_succeeded (s : ViewState) (replies : list FetchReply) :
  Forall succeeded replies →
  loading s = false →
  loading (fetches s replies) = false
  ∧ AssessmentView.error (fetches s replies) = AssessmentView.error s.
Proof.
  intros Hreplies. revert s.
  induction Hreplies as [|reply replies Hreply _ IH]; intros s Hloading; [done|].
  destruct reply as [data| |]; try done.
  change (fetches s (FetchOk data :: replies))
    with (fetches (fetchSessionAnalysis (FetchOk data) s) replies).
  destruct (IH (fetchSessionAnalysis (FetchOk data) s)) as [-> ->]; done.
Qed.

(** X23: an error outlives the answers that follow it.  The error cell
    is written when a request fails and never cleared, and it is looked
    at before the data: once a request of a mounted view has failed with
    a text, the view shows that text whatever sessions are picked and
    fetched successfully afterwards. *)
Theorem X23_error_outlives_success (before after : list FetchReply) (failed : FetchReply)
    (text : string) :
  failureText failed = Some text →
  falsy text = false →
  Forall succeeded after →
  render (fetches initialView (before ++ failed :: after)) = ErrorScreen text.
Proof.
  intros Hfailed Htext Hafter.
  rewrite fetches_app.
  change (fetches (fetches initialView before) (failed :: after))
    with (fetches (fetchSessionAnalysis failed (fetches initialView before)) after).
  set (s := fetchSessionAnalysis failed (fetches initialView before)).
  assert (loading s = false ∧ AssessmentView.error s = Some text) as [Hloading Herror].
  { unfold s. destruct failed; simpl in *; [done | split; congruence | split; congruence]. }
  destruct (fetches_succeeded s after Hafter Hloading) as [Hloading' Herror'].
  unfold render. by rewrite Hloading', Herror', Herror, Htext.
Qed.

Lemma X23_error_outlives_success_witness :
  render (fetches initialView ([] ++ FetchRefused None :: [FetchOk (sampleDetails "kid")]))
  = ErrorScreen "Failed to fetch analysis".
Proof.
  apply (X23_error_outlives_success [] [FetchOk (sampleDetails "kid")] (FetchRefused None)
           "Failed to fetch analysis"); [reflexivity | reflexivity | by repeat constructor].
Defined.

Lemma fetches_loaded (s : ViewState) (replies : list FetchReply) :
  loading s = false → loading (fetches s replies) = false.
Proof.
  revert s. induction replies as [|reply replies IH]; intros s Hloading; [done|].
  change (fetches s (reply :: replies)) with (fetches (fetchSessionAnalysis reply s) replies).
  by apply IH.
Qed.

Lemma fetches_no_error (s : ViewState) (replies : list FetchReply) :
  Forall succeeded replies →
  AssessmentView.error (fetches s replies) = AssessmentView.error s.
Proof.
  intros Hreplies. revert s.
  induction Hreplies as [|reply replies Hreply _ IH]; intros s; [done|].
  destruct reply as [data| |]; try done.
  change (fetches s (FetchOk data :: replies))
    with (fetches (fetchSessionAnalysis (FetchOk data) s) replies).
  by rewrite IH.
Qed.

(** X24: after its first answer the view never shows the loading screen
    again, so while a later request is in flight it keeps showing what
    it showed; and as long as no request has failed it shows the data of
    the answer that arrived last. *)
Theorem X24_last_answer_shown (earlier : list FetchReply) (data : SessionDetails) :
  Forall succeeded earlier →
  render (fetches initialView (earlier ++ [FetchOk data])) = AnalysisScreen data
  ∧ ∀ reply more, render (fetches initialView (earlier ++ reply :: more)) ≠ LoadingScreen.
Proof.
  intros Hearlier. split.
  - rewrite fetches_app.
    change (fetches (fetches initialView earlier) [FetchOk data])
      with (fetchSessionAnalysis (FetchOk data) (fetches initialView earlier)).
    unfold render, fetchSessionAnalysis. simpl.
    by rewrite fetches_no_error.
  - intros reply more. rewrite fetches_app.
    change (fetches (fetches initialView earlier) (reply :: more))
      with (fetches (fetchSessionAnalysis reply (fetches initialView earlier)) more).
    unfold render. rewrite fetches_loaded by done. by repeat case_match.
Qed.

Lemma X24_last_answer_shown_witness :
  render (fetches initialView
            ([FetchOk (sampleDetails "kid")] ++ [FetchOk (sampleDetails "sib")]))
  = AnalysisScreen (sampleDetails "sib").
Proof.
  apply (X24_last_answer_shown [FetchOk (sampleDetails "kid")] (sampleDetails "sib")).
  by repeat constructor.
Defined.

End Assessment.
